(** * Contact-submission pipeline of the portfolio backend

    A shallow embedding of the two contact handlers of the repository,
    the Express server (server.js) and the serverless functions
    (api/contact.js, api/health.js), with the properties of the
    validation, logging, rendering and delivery steps.

    JavaScript strings are sequences of UTF-16 code units; [length],
    [trim], the regular expression of [isValidEmail] and [escapeHtml]
    all work on code units, so a string is a [list N] here. *)

From Stdlib Require Import List Arith NArith String Ascii Lia Bool.
Import ListNotations.

Set Implicit Arguments.

Open Scope string_scope.
Open Scope list_scope.

(* ================================================================== *)
(** ** JavaScript strings *)

Module JS.

Local Open Scope N_scope.

Definition jsstring := list N.

(** Bytes of a literal of this file (the file is UTF-8, as the sources). *)
Definition bytes (s : string) : list N :=
  map N_of_ascii (list_ascii_of_string s).

(** UTF-8 decoding into UTF-16 code units: how the text of a string
    literal of the JavaScript source becomes the string value.  A code
    point above U+FFFF becomes a surrogate pair. *)
Fixpoint utf16 (bs : list N) : jsstring :=
  match bs with
  | [] => []
  | b0 :: r0 =>
    if b0 <? 128 then b0 :: utf16 r0
    else if b0 <? 224 then
      match r0 with
      | b1 :: r1 => ((b0 mod 32) * 64 + b1 mod 64) :: utf16 r1
      | _ => []
      end
    else if b0 <? 240 then
      match r0 with
      | b1 :: b2 :: r2 =>
          ((b0 mod 16) * 4096 + (b1 mod 64) * 64 + b2 mod 64) :: utf16 r2
      | _ => []
      end
    else
      match r0 with
      | b1 :: b2 :: b3 :: r3 =>
          let cp := (b0 mod 8) * 262144 + (b1 mod 64) * 4096
                    + (b2 mod 64) * 64 + b3 mod 64 in
          let v := cp - 65536 in
          (55296 + v / 1024) :: (56320 + v mod 1024) :: utf16 r3
      | _ => []
      end
  end.

(** The string value of a literal. *)
Definition js (s : string) : jsstring := utf16 (bytes s).

(** The double quote, which a literal of this file cannot hold. *)
Definition dq : N := 34.

(** A literal with double quotes: the pieces between the quotes. *)
Fixpoint Q (pieces : list string) : jsstring :=
  match pieces with
  | [] => []
  | [p] => js p
  | p :: rest => js p ++ dq :: Q rest
  end.

(** [WhiteSpace] and [LineTerminator] code units of ECMAScript: what
    [String.prototype.trim] strips and what [\s] matches. *)
Definition isWhiteSpace (c : N) : bool :=
  (c =? 9) || (c =? 10) || (c =? 11) || (c =? 12) || (c =? 13)
  || (c =? 32) || (c =? 160) || (c =? 5760)
  || ((8192 <=? c) && (c <=? 8202))
  || (c =? 8232) || (c =? 8233) || (c =? 8239) || (c =? 8287)
  || (c =? 12288) || (c =? 65279).

Fixpoint trimStart (s : jsstring) : jsstring :=
  match s with
  | [] => []
  | c :: t => if isWhiteSpace c then trimStart t else s
  end.

Definition trimEnd (s : jsstring) : jsstring := rev (trimStart (rev s)).

(** [s.trim()] *)
Definition trim (s : jsstring) : jsstring := trimEnd (trimStart s).

(** [s.substring(0, n)] *)
Definition substring0 (n : nat) (s : jsstring) : jsstring := firstn n s.

(** [s.split(sep)] for a separator of one code unit. *)
Fixpoint split (sep : N) (s : jsstring) : list jsstring :=
  match s with
  | [] => [[]]
  | c :: t =>
    if c =? sep then [] :: split sep t
    else match split sep t with
         | h :: r => (c :: h) :: r
         | [] => [[c]]
         end
  end.



End JS.

Import JS.

(* ================================================================== *)
(** ** Regular expressions over code units *)

Module RegExp.

Local Open Scope N_scope.

Inductive regex : Type :=
| Never
| Empty
| Class (p : N -> bool)
| Seq (r1 r2 : regex)
| Or (r1 r2 : regex)
| Star (r : regex).

(** [r+] *)
Definition Plus (r : regex) : regex := Seq r (Star r).

(** A single code unit. *)
Definition Chr (c : N) : regex := Class (N.eqb c).

(** The words of a regular expression. *)
Inductive lang : regex -> jsstring -> Prop :=
| lang_empty : lang Empty []
| lang_class p c : p c = true -> lang (Class p) [c]
| lang_seq r1 r2 u v : lang r1 u -> lang r2 v -> lang (Seq r1 r2) (u ++ v)
| lang_or_l r1 r2 u : lang r1 u -> lang (Or r1 r2) u
| lang_or_r r1 r2 u : lang r2 u -> lang (Or r1 r2) u
| lang_star_nil r : lang (Star r) []
| lang_star_cons r u v :
    lang r u -> lang (Star r) v -> lang (Star r) (u ++ v).

Fixpoint nullable (r : regex) : bool :=
  match r with
  | Never => false
  | Empty => true
  | Class _ => false
  | Seq r1 r2 => nullable r1 && nullable r2
  | Or r1 r2 => nullable r1 || nullable r2
  | Star _ => true
  end.

Fixpoint deriv (c : N) (r : regex) : regex :=
  match r with
  | Never => Never
  | Empty => Never
  | Class p => if p c then Empty else Never
  | Seq r1 r2 =>
      if nullable r1 then Or (Seq (deriv c r1) r2) (deriv c r2)
      else Seq (deriv c r1) r2
  | Or r1 r2 => Or (deriv c r1) (deriv c r2)
  | Star r1 => Seq (deriv c r1) (Star r1)
  end.

(** [/^r$/.test(s)]: the whole string is a word of [r]. *)
Fixpoint test (r : regex) (s : jsstring) : bool :=
  match s with
  | [] => nullable r
  | c :: t => test (deriv c r) t
  end.

End RegExp.

(* ================================================================== *)
(** ** Helper functions shared by server.js and api/contact.js *)

Local Open Scope N_scope.

(** [[^\s@]] *)
Definition notSpaceAt (c : N) : bool := negb (isWhiteSpace c || (c =? 64)).

(** [/^[^\s@]+@[^\s@]+\.[^\s@]+$/] *)
Definition emailPattern : RegExp.regex :=
  RegExp.Seq (RegExp.Plus (RegExp.Class notSpaceAt))
    (RegExp.Seq (RegExp.Chr 64)
       (RegExp.Seq (RegExp.Plus (RegExp.Class notSpaceAt))
          (RegExp.Seq (RegExp.Chr 46)
             (RegExp.Plus (RegExp.Class notSpaceAt))))).

Definition isValidEmail (email : jsstring) : bool :=
  RegExp.test emailPattern email.

(** The callback [char => map[char]] of [escapeHtml]. *)
Definition escapeChar (c : N) : jsstring :=
  if c =? 38 then js "&amp;"
  else if c =? 60 then js "&lt;"
  else if c =? 62 then js "&gt;"
  else if c =? 34 then js "&quot;"
  else if c =? 39 then js "&#039;"
  else [c].

(** [text.replace(re, char => map[char])] with [re] the global class of
    the five code units & < > double quote and single quote. *)
Definition escapeHtml (text : jsstring) : jsstring := flat_map escapeChar text.


(* ================================================================== *)
(** ** Values exchanged with the outside *)

(** A thrown [Error] object. *)
Record JsError := { err_message : jsstring }.

(** An argument of [console.log] or [console.error]. *)
Inductive LogArg :=
| LStr (s : jsstring)
| LErr (e : JsError)
| LUndefined.

(** The [port] option of a transport: the literal 587, or
    [parseInt(process.env.EMAIL_PORT) || 587], whose operand is kept as
    read from the environment. *)
Inductive Port :=
| Port587
| PortOfEnv (raw : option jsstring).

(** The options object given to [nodemailer.createTransport]. *)
Record TransportOptions := {
  host : jsstring;
  port : Port;
  secure : bool;
  auth_user : jsstring;
  auth_pass : jsstring
}.

(** A transport instance: the object built from its options. *)
Definition Transporter := TransportOptions.

(** The account [nodemailer.createTestAccount] resolves to. *)
Record TestAccount := { user : jsstring; pass : jsstring }.

(** What [sendMail] resolves to; [previewUrl] is the result of
    [nodemailer.getTestMessageUrl(info)], [None] for [false]. *)
Record SentInfo := { previewUrl : option jsstring }.

(** The [mailOptions] object. *)
Record MailOptions := {
  from : jsstring;
  to : option jsstring;
  replyTo : jsstring;
  subject : jsstring;
  html : jsstring;
  text : jsstring
}.

#[local] Unset Elimination Schemes.
Inductive Json :=
| JStr (s : jsstring)
| JBool (b : bool)
| JArr (items : list Json)
| JObj (fields : list (string * Json)).
#[local] Set Elimination Schemes.

Record Response := {
  status : N;
  headers : list (string * Json);
  body : option Json
}.

(** [req.body]: the four fields of a submission; [None] is a field that
    is missing or null, [Some s] a string.  The specification takes the
    fields to be text; JSON values of other types are not modelled. *)
Record Body := {
  name : option jsstring;
  email : option jsstring;
  subject_ : option jsstring;
  message : option jsstring
}.

(** [process.env], and the path computed once when server.js loads. *)
Record Env := {
  EMAIL_HOST : option jsstring;
  EMAIL_PORT : option jsstring;
  EMAIL_USER : option jsstring;
  EMAIL_PASS : option jsstring;
  EMAIL_TO : option jsstring;
  SUBMISSIONS_FILE : jsstring
}.

(** Calls that leave the process, in the order they are made. *)
Inductive Event :=
| ConsoleLog (args : list LogArg)
| ConsoleError (args : list LogArg)
| AppendFile (path data : jsstring)
| CreateTransport (options : TransportOptions)
| CreateTestAccount
| Verify (t : Transporter)
| SendMail (t : Transporter) (m : MailOptions).

(** The state of the process and of what it writes: the module variable
    [transporter] of server.js, the content of the submissions file and
    the calls made so far. *)
Record World := {
  transporter : option Transporter;
  submissions : jsstring;
  events : list Event
}.

(* ================================================================== *)
(** ** JavaScript operators on values that may be undefined *)

(** [!x] for a string or undefined. *)
Definition not_ (x : option jsstring) : bool :=
  match x with
  | None => true
  | Some [] => true
  | Some (_ :: _) => false
  end.

(** [a || b] *)
Definition or_ (a b : option jsstring) : option jsstring :=
  if not_ a then b else a.

(** A value inside a template literal. *)
Definition interp (x : option jsstring) : jsstring :=
  match x with
  | Some s => s
  | None => js "undefined"
  end.

(** [a !== b] on strings *)
Definition strictNe (a b : jsstring) : bool :=
  if list_eq_dec N.eq_dec a b then false else true.

(** [a === b] on strings *)
Definition strictEq (a b : jsstring) : bool := negb (strictNe a b).

(** [arr.push(x)] *)
Definition push {A} (arr : list A) (x : A) : list A := arr ++ [x].

(* ================================================================== *)
(** ** The monad of handlers: state and exceptions *)

Inductive Completion (A : Type) :=
| Normal (a : A)
| Throw (e : JsError).

Arguments Normal {A} a.
Arguments Throw {A} e.

Definition M (A : Type) := World -> Completion A * World.

Definition ret {A} (a : A) : M A := fun w => (Normal a, w).

Definition bind {A B} (m : M A) (k : A -> M B) : M B :=
  fun w =>
    match m w with
    | (Normal a, w') => k a w'
    | (Throw e, w') => (Throw e, w')
    end.

Definition throw {A} (e : JsError) : M A := fun w => (Throw e, w).

(** [try { m } catch (error) { h error }] *)
Definition tryCatch {A} (m : M A) (h : JsError -> M A) : M A :=
  fun w =>
    match m w with
    | (Normal a, w') => (Normal a, w')
    | (Throw e, w') => h e w'
    end.

Notation "x <- m ;; k" := (bind m (fun x => k))
  (at level 61, m at next level, right associativity).
Notation "m ;; k" := (bind m (fun _ => k))
  (at level 61, right associativity).

Definition emit (ev : Event) : M unit :=
  fun w =>
    (Normal tt,
     {| transporter := transporter w;
        submissions := submissions w;
        events := events w ++ [ev] |}).

Definition getTransporter : M (option Transporter) :=
  fun w => (Normal (transporter w), w).

Definition setTransporter (t : Transporter) : M unit :=
  fun w =>
    (Normal tt,
     {| transporter := Some t;
        submissions := submissions w;
        events := events w |}).

Definition consoleLog (args : list LogArg) : M unit := emit (ConsoleLog args).

Definition consoleError (args : list LogArg) : M unit :=
  emit (ConsoleError args).

(** [fs.appendFileSync(path, data, 'utf8')] on the submissions file: the
    data is added at the end, or the call throws and the file is as
    before. *)
Definition appendFileSync (path data : jsstring) (outcome : option JsError)
  : M unit :=
  emit (AppendFile path data) ;;
  match outcome with
  | Some e => throw e
  | None =>
      fun w =>
        (Normal tt,
         {| transporter := transporter w;
            submissions := submissions w ++ data;
            events := events w |})
  end.

(** [nodemailer.createTransport(options)] *)
Definition createTransport (options : TransportOptions) : M Transporter :=
  emit (CreateTransport options) ;; ret options.

(** [await nodemailer.createTestAccount()] *)
Definition createTestAccount (outcome : JsError + TestAccount)
  : M TestAccount :=
  emit CreateTestAccount ;;
  match outcome with
  | inl e => throw e
  | inr account => ret account
  end.

(** [await transporter.sendMail(mailOptions)] *)
Definition sendMail (t : Transporter) (m : MailOptions)
           (outcome : JsError + SentInfo) : M SentInfo :=
  emit (SendMail t m) ;;
  match outcome with
  | inl e => throw e
  | inr info => ret info
  end.

(** The four checks of both handlers, in the order of the source. *)
Definition validation (b : Body) : list jsstring :=
  let errors := [] in
  let errors :=
    if not_ (name b)
       || match name b with
          | Some name => (List.length (trim name) <? 2)%nat
          | None => false
          end
    then push errors (js "Name is required (min 2 characters)")
    else errors in
  let errors :=
    if not_ (email b)
       || match email b with
          | Some email => negb (isValidEmail email)
          | None => false
          end
    then push errors (js "Valid email address is required")
    else errors in
  let errors :=
    if not_ (subject_ b)
       || match subject_ b with
          | Some subject => (List.length (trim subject) <? 3)%nat
          | None => false
          end
    then push errors (js "Subject is required (min 3 characters)")
    else errors in
  let errors :=
    if not_ (message b)
       || match message b with
          | Some message => (List.length (trim message) <? 20)%nat
          | None => false
          end
    then push errors (js "Message is required (min 20 characters)")
    else errors in
  errors.

(** The body of the successful answer, the same in both handlers. *)
Definition thankYou : Json :=
  JObj [("success", JBool true);
        ("message",
         JStr (js "Thank you for your message! I will get back to you soon."))].

(** The body of the answer of the catch block, the same in both handlers. *)
Definition genericFailure : Json :=
  JObj [("success", JBool false);
        ("message",
         JStr (js "Sorry, there was an error sending your message. Please try again later."))].

(** The body of a rejection. *)
Definition rejection (errors : list jsstring) : Json :=
  JObj [("success", JBool false); ("errors", JArr (map JStr errors))].

(* ================================================================== *)
(** ** server.js *)

Module Server.

(** What the outside answers during one request: the clock readings, as
    formatted by the four [new Date()] expressions, and the outcomes of
    the file append and of the send. *)
Record Oracle := {
  consoleTime : jsstring;
  fileTimestamp : jsstring;
  htmlDate : jsstring;
  textDate : jsstring;
  appendOutcome : option JsError;
  sendOutcome : JsError + SentInfo
}.

(** What the outside answers while the transport is set up. *)
Record SetupOracle := {
  verifyOutcome : option JsError;
  testAccountOutcome : JsError + TestAccount
}.

Definition setupTestEmail (so : SetupOracle) : M unit :=
  tryCatch
    (testAccount <- createTestAccount (testAccountOutcome so) ;;
     t <- createTransport
            {| host := js "smtp.ethereal.email";
               port := Port587;
               secure := false;
               auth_user := user testAccount;
               auth_pass := pass testAccount |} ;;
     setTransporter t ;;
     consoleLog [LStr (js "📧 Using Ethereal test email service")] ;;
     consoleLog [LStr (js "🔗 View test emails at: https://ethereal.email")] ;;
     consoleLog [LStr (js "   Login: " ++ user testAccount)] ;;
     consoleLog [LStr (js "   Pass:  " ++ pass testAccount)])
    (fun error =>
       consoleLog [LStr (js "⚠️  Could not set up test email:");
                   LStr (err_message error)]).

(** The transport at the end of the start-up: the callback of [verify]
    has run, and the fallback it may start has settled. *)
Definition setupEmailTransporter (env : Env) (so : SetupOracle) : M unit :=
  if negb (not_ (EMAIL_USER env)) && negb (not_ (EMAIL_PASS env))
     && strictNe (interp (EMAIL_PASS env)) (js "YOUR_APP_PASSWORD")
     && strictNe (interp (EMAIL_PASS env))
                 (js "PASTE_YOUR_16_CHAR_APP_PASSWORD_HERE")
  then
    t <- createTransport
           {| host := interp (or_ (EMAIL_HOST env) (Some (js "smtp.gmail.com")));
              port := PortOfEnv (EMAIL_PORT env);
              secure := false;
              auth_user := interp (EMAIL_USER env);
              auth_pass := interp (EMAIL_PASS env) |} ;;
    setTransporter t ;;
    emit (Verify t) ;;
    match verifyOutcome so with
    | Some error =>
        consoleLog [LStr (js "⚠️  Email configuration error:");
                    LStr (err_message error)] ;;
        consoleLog [LStr (js "📝 Falling back to test email service...")] ;;
        setupTestEmail so
    | None =>
        consoleLog [LStr (js "✅ Email server is ready to send messages")] ;;
        consoleLog [LStr (js "📧 Emails will be sent to: "
                          ++ interp (or_ (EMAIL_TO env) (EMAIL_USER env)))]
    end
  else
    setupTestEmail so.

(** The block [entry] of [saveSubmissionToFile]. *)
Definition entry (timestamp name email subject message : jsstring)
  : jsstring :=
  List.concat
    [ js "
════════════════════════════════════════════════════════════
                    NEW CONTACT SUBMISSION
════════════════════════════════════════════════════════════
📅 Date/Time: ";
      timestamp;
      js "
────────────────────────────────────────────────────────────
👤 Name:      ";
      name;
      js "
📧 Email:     ";
      email;
      js "
📝 Subject:   ";
      subject;
      js "
────────────────────────────────────────────────────────────
💬 Message:
";
      message;
      js "
════════════════════════════════════════════════════════════

" ].

Definition saveSubmissionToFile (env : Env) (o : Oracle)
           (name email subject message : jsstring) : M unit :=
  let timestamp := fileTimestamp o in
  let entry := entry timestamp name email subject message in
  tryCatch
    (appendFileSync (SUBMISSIONS_FILE env) entry (appendOutcome o) ;;
     consoleLog [LStr (js "💾 Submission saved to:");
                 LStr (SUBMISSIONS_FILE env)])
    (fun error =>
       consoleError [LStr (js "❌ Error saving to file:");
                     LStr (err_message error)]).

Definition generateEmailTemplate (currentDate : jsstring)
           (name email subject message : jsstring) : jsstring :=
  List.concat
    [ Q ["
<!DOCTYPE html>
<html lang="; "en"; ">
<head>
    <meta charset="; "UTF-8"; ">
    <meta name="; "viewport"; " content="; "width=device-width, initial-scale=1.0"; ">
    <title>New Contact Form Submission</title>
</head>
<body style="; "margin: 0; padding: 0; font-family: 'Segoe UI', Tahoma, Geneva, Verdana, sans-serif; background-color: #0a0a0f;"; ">
    <table role="; "presentation"; " width="; "100%"; " cellspacing="; "0"; " cellpadding="; "0"; " style="; "background-color: #0a0a0f; padding: 40px 20px;"; ">
        <tr>
            <td align="; "center"; ">
                <table role="; "presentation"; " width="; "600"; " cellspacing="; "0"; " cellpadding="; "0"; " style="; "background: linear-gradient(145deg, #0d1b2a, #1a1a2e); border-radius: 16px; overflow: hidden; box-shadow: 0 20px 60px rgba(0, 212, 255, 0.15);"; ">

                    <!-- Header -->
                    <tr>
                        <td style="; "background: linear-gradient(135deg, #00d4ff, #00ffcc); padding: 30px 40px; text-align: center;"; ">
                            <h1 style="; "margin: 0; color: #0a0a0f; font-size: 28px; font-weight: 700; letter-spacing: 1px;"; ">
                                ✉️ New Message Received
                            </h1>
                            <p style="; "margin: 10px 0 0; color: #0d1b2a; font-size: 14px; opacity: 0.8;"; ">
                                Someone contacted you through your portfolio
                            </p>
                        </td>
                    </tr>

                    <!-- Timestamp -->
                    <tr>
                        <td style="; "padding: 20px 40px 0; text-align: center;"; ">
                            <p style="; "margin: 0; color: #a0a0a0; font-size: 12px;"; ">
                                📅 "];
      currentDate;
      Q ["
                            </p>
                        </td>
                    </tr>

                    <!-- Contact Details -->
                    <tr>
                        <td style="; "padding: 30px 40px;"; ">
                            <table role="; "presentation"; " width="; "100%"; " cellspacing="; "0"; " cellpadding="; "0"; ">

                                <!-- Name -->
                                <tr>
                                    <td style="; "padding: 15px 20px; background: rgba(255,255,255,0.03); border-radius: 12px; margin-bottom: 10px;"; ">
                                        <table role="; "presentation"; " width="; "100%"; " cellspacing="; "0"; " cellpadding="; "0"; ">
                                            <tr>
                                                <td width="; "40"; " style="; "vertical-align: top;"; ">
                                                    <div style="; "width: 36px; height: 36px; background: linear-gradient(135deg, #00d4ff, #00ffcc); border-radius: 8px; text-align: center; line-height: 36px; font-size: 16px;"; ">
                                                        👤
                                                    </div>
                                                </td>
                                                <td style="; "padding-left: 15px; vertical-align: top;"; ">
                                                    <p style="; "margin: 0 0 4px; color: #a0a0a0; font-size: 11px; text-transform: uppercase; letter-spacing: 1px;"; ">Name</p>
                                                    <p style="; "margin: 0; color: #ffffff; font-size: 16px; font-weight: 600;"; ">"];
      escapeHtml name;
      Q ["</p>
                                                </td>
                                            </tr>
                                        </table>
                                    </td>
                                </tr>

                                <tr><td style="; "height: 12px;"; "></td></tr>

                                <!-- Email -->
                                <tr>
                                    <td style="; "padding: 15px 20px; background: rgba(255,255,255,0.03); border-radius: 12px;"; ">
                                        <table role="; "presentation"; " width="; "100%"; " cellspacing="; "0"; " cellpadding="; "0"; ">
                                            <tr>
                                                <td width="; "40"; " style="; "vertical-align: top;"; ">
                                                    <div style="; "width: 36px; height: 36px; background: linear-gradient(135deg, #00d4ff, #00ffcc); border-radius: 8px; text-align: center; line-height: 36px; font-size: 16px;"; ">
                                                        📧
                                                    </div>
                                                </td>
                                                <td style="; "padding-left: 15px; vertical-align: top;"; ">
                                                    <p style="; "margin: 0 0 4px; color: #a0a0a0; font-size: 11px; text-transform: uppercase; letter-spacing: 1px;"; ">Email</p>
                                                    <a href="; "mailto:"];
      escapeHtml email;
      Q [EmptyString; " style="; "color: #00d4ff; font-size: 16px; font-weight: 600; text-decoration: none;"; ">"];
      escapeHtml email;
      Q ["</a>
                                                </td>
                                            </tr>
                                        </table>
                                    </td>
                                </tr>

                                <tr><td style="; "height: 12px;"; "></td></tr>

                                <!-- Subject -->
                                <tr>
                                    <td style="; "padding: 15px 20px; background: rgba(255,255,255,0.03); border-radius: 12px;"; ">
                                        <table role="; "presentation"; " width="; "100%"; " cellspacing="; "0"; " cellpadding="; "0"; ">
                                            <tr>
                                                <td width="; "40"; " style="; "vertical-align: top;"; ">
                                                    <div style="; "width: 36px; height: 36px; background: linear-gradient(135deg, #00d4ff, #00ffcc); border-radius: 8px; text-align: center; line-height: 36px; font-size: 16px;"; ">
                                                        📝
                                                    </div>
                                                </td>
                                                <td style="; "padding-left: 15px; vertical-align: top;"; ">
                                                    <p style="; "margin: 0 0 4px; color: #a0a0a0; font-size: 11px; text-transform: uppercase; letter-spacing: 1px;"; ">Subject</p>
                                                    <p style="; "margin: 0; color: #ffffff; font-size: 16px; font-weight: 600;"; ">"];
      escapeHtml subject;
      Q ["</p>
                                                </td>
                                            </tr>
                                        </table>
                                    </td>
                                </tr>

                            </table>
                        </td>
                    </tr>

                    <!-- Message -->
                    <tr>
                        <td style="; "padding: 0 40px 30px;"; ">
                            <div style="; "background: rgba(0, 212, 255, 0.05); border: 1px solid rgba(0, 212, 255, 0.2); border-radius: 12px; padding: 25px;"; ">
                                <p style="; "margin: 0 0 12px; color: #00d4ff; font-size: 13px; text-transform: uppercase; letter-spacing: 1px; font-weight: 600;"; ">
                                    💬 Message
                                </p>
                                <p style="; "margin: 0; color: #e0e0e0; font-size: 15px; line-height: 1.7; white-space: pre-wrap;"; ">"];
      escapeHtml message;
      Q ["</p>
                            </div>
                        </td>
                    </tr>

                    <!-- Reply Button -->
                    <tr>
                        <td style="; "padding: 0 40px 30px; text-align: center;"; ">
                            <a href="; "mailto:"];
      escapeHtml email;
      js "?subject=Re: ";
      escapeHtml subject;
      Q [EmptyString; "
                               style="; "display: inline-block; background: linear-gradient(135deg, #00d4ff, #00ffcc); color: #0a0a0f; text-decoration: none; padding: 14px 40px; border-radius: 8px; font-weight: 600; font-size: 14px; letter-spacing: 0.5px;"; ">
                                Reply to "];
      escapeHtml (nth 0 (split 32 name) []);
      Q [" →
                            </a>
                        </td>
                    </tr>

                    <!-- Footer -->
                    <tr>
                        <td style="; "background: rgba(0,0,0,0.3); padding: 25px 40px; text-align: center; border-top: 1px solid rgba(255,255,255,0.05);"; ">
                            <p style="; "margin: 0 0 8px; color: #ffffff; font-size: 16px; font-weight: 700;"; ">
                                Ajay Jaiswar
                            </p>
                            <p style="; "margin: 0; color: #a0a0a0; font-size: 12px;"; ">
                                QA Analyst & Frontend Developer
                            </p>
                            <p style="; "margin: 15px 0 0; color: #6b6b6b; font-size: 11px;"; ">
                                This email was sent from your portfolio contact form
                            </p>
                        </td>
                    </tr>

                </table>
            </td>
        </tr>
    </table>
</body>
</html>
    "] ].

Definition generatePlainTextEmail (now : jsstring)
           (name email subject message : jsstring) : jsstring :=
  List.concat
    [ js "
═══════════════════════════════════════════
       NEW CONTACT FORM SUBMISSION
═══════════════════════════════════════════

📅 Date: ";
      now;
      js "

───────────────────────────────────────────
CONTACT DETAILS
───────────────────────────────────────────

👤 Name:    ";
      name;
      js "
📧 Email:   ";
      email;
      js "
📝 Subject: ";
      subject;
      js "

───────────────────────────────────────────
MESSAGE
───────────────────────────────────────────

";
      message;
      js "

═══════════════════════════════════════════
Sent from Ajay Jaiswar's Portfolio Website
═══════════════════════════════════════════
    " ].

(** [app.get('/api/health', ...)]; [isoNow] is
    [new Date().toISOString()]. *)
Definition health (isoNow : jsstring) : M Response :=
  t <- getTransporter ;;
  ret {| status := 200;
         headers := [];
         body := Some (JObj [("status", JStr (js "ok"));
                             ("message", JStr (js "Portfolio API is running"));
                             ("timestamp", JStr isoNow);
                             ("emailConfigured",
                              JBool (match t with Some _ => true | None => false end))]) |}.

(** The message handed to the transport. *)
Definition mailOptions (env : Env) (o : Oracle)
           (name email subject message : jsstring) : MailOptions :=
  {| from := Q [EmptyString; "Portfolio Contact"; " <"]
             ++ interp (EMAIL_USER env) ++ js ">";
     to := or_ (EMAIL_TO env) (EMAIL_USER env);
     replyTo := email;
     subject := js "🚀 Portfolio: " ++ subject;
     html := generateEmailTemplate (htmlDate o) name email subject message;
     text := generatePlainTextEmail (textDate o) name email subject message |}.

(** [app.post('/api/contact', ...)] *)
Definition contact (env : Env) (o : Oracle) (b : Body) : M Response :=
  tryCatch
    (let errors := validation b in
     if (0 <? List.length errors)%nat then
       ret {| status := 400; headers := []; body := Some (rejection errors) |}
     else
       match name b, email b, subject_ b, message b with
       | Some name, Some email, Some subject, Some message =>
           consoleLog [LStr (js "
╔═══════════════════════════════════════════╗")] ;;
           consoleLog [LStr (js "║     NEW CONTACT FORM SUBMISSION           ║")] ;;
           consoleLog [LStr (js "╠═══════════════════════════════════════════╣")] ;;
           consoleLog [LStr (js "║ Time:    " ++ consoleTime o)] ;;
           consoleLog [LStr (js "║ Name:    " ++ name)] ;;
           consoleLog [LStr (js "║ Email:   " ++ email)] ;;
           consoleLog [LStr (js "║ Subject: " ++ subject)] ;;
           consoleLog [LStr (js "╠═══════════════════════════════════════════╣")] ;;
           consoleLog [LStr (js "║ Message: " ++ substring0 50 message ++ js "...")] ;;
           consoleLog [LStr (js "╚═══════════════════════════════════════════╝
")] ;;
           saveSubmissionToFile env o name email subject message ;;
           t <- getTransporter ;;
           match t with
           | Some transporter =>
               info <- sendMail transporter
                         (mailOptions env o name email subject message)
                         (sendOutcome o) ;;
               consoleLog [LStr (js "✅ Email sent successfully!")] ;;
               match previewUrl info with
               | Some previewUrl =>
                   consoleLog [LStr (js "🔗 Preview email at:"); LStr previewUrl]
               | None =>
                   consoleLog [LStr (js "📧 Sent to:");
                               match or_ (EMAIL_TO env) (EMAIL_USER env) with
                               | Some dest => LStr dest
                               | None => LUndefined
                               end]
               end
           | None =>
               consoleLog
                 [LStr (js "⚠️  Email not sent (not configured). Data logged above.")]
           end ;;
           ret {| status := 200; headers := []; body := Some thankYou |}
       | _, _, _, _ =>
           (* not reached: a field that is not a string fails its check *)
           throw {| err_message := js "Cannot read properties of undefined" |}
       end)
    (fun error =>
       consoleError [LStr (js "❌ Contact form error:"); LErr error] ;;
       ret {| status := 500; headers := []; body := Some genericFailure |}).

End Server.

(* ================================================================== *)
(** ** api/contact.js and api/health.js *)

Module Api.

(** What the outside answers during one request. *)
Record Oracle := {
  htmlDate : jsstring;
  testAccountOutcome : JsError + TestAccount;
  sendOutcome : JsError + SentInfo
}.

Record Request := {
  method : jsstring;
  reqBody : Body
}.

Definition generateEmailTemplate (currentDate : jsstring)
           (name email subject message : jsstring) : jsstring :=
  List.concat
    [ Q ["
<!DOCTYPE html>
<html lang="; "en"; ">
<head>
    <meta charset="; "UTF-8"; ">
    <meta name="; "viewport"; " content="; "width=device-width, initial-scale=1.0"; ">
    <title>New Contact Form Submission</title>
</head>
<body style="; "margin: 0; padding: 0; font-family: 'Segoe UI', Tahoma, Geneva, Verdana, sans-serif; background-color: #0a0a0f;"; ">
    <table role="; "presentation"; " width="; "100%"; " cellspacing="; "0"; " cellpadding="; "0"; " style="; "background-color: #0a0a0f; padding: 40px 20px;"; ">
        <tr>
            <td align="; "center"; ">
                <table role="; "presentation"; " width="; "600"; " cellspacing="; "0"; " cellpadding="; "0"; " style="; "background: linear-gradient(145deg, #0d1b2a, #1a1a2e); border-radius: 16px; overflow: hidden; box-shadow: 0 20px 60px rgba(0, 212, 255, 0.15);"; ">
                    <tr>
                        <td style="; "background: linear-gradient(135deg, #00d4ff, #00ffcc); padding: 30px 40px; text-align: center;"; ">
                            <h1 style="; "margin: 0; color: #0a0a0f; font-size: 28px; font-weight: 700;"; ">New Message Received</h1>
                            <p style="; "margin: 10px 0 0; color: #0d1b2a; font-size: 14px;"; ">Someone contacted you through your portfolio</p>
                        </td>
                    </tr>
                    <tr>
                        <td style="; "padding: 20px 40px 0; text-align: center;"; ">
                            <p style="; "margin: 0; color: #a0a0a0; font-size: 12px;"; ">"];
      currentDate;
      Q ["</p>
                        </td>
                    </tr>
                    <tr>
                        <td style="; "padding: 30px 40px;"; ">
                            <div style="; "padding: 15px 20px; background: rgba(255,255,255,0.03); border-radius: 12px; margin-bottom: 12px;"; ">
                                <p style="; "margin: 0 0 4px; color: #a0a0a0; font-size: 11px; text-transform: uppercase;"; ">Name</p>
                                <p style="; "margin: 0; color: #ffffff; font-size: 16px; font-weight: 600;"; ">"];
      escapeHtml name;
      Q ["</p>
                            </div>
                            <div style="; "padding: 15px 20px; background: rgba(255,255,255,0.03); border-radius: 12px; margin-bottom: 12px;"; ">
                                <p style="; "margin: 0 0 4px; color: #a0a0a0; font-size: 11px; text-transform: uppercase;"; ">Email</p>
                                <a href="; "mailto:"];
      escapeHtml email;
      Q [EmptyString; " style="; "color: #00d4ff; font-size: 16px; font-weight: 600; text-decoration: none;"; ">"];
      escapeHtml email;
      Q ["</a>
                            </div>
                            <div style="; "padding: 15px 20px; background: rgba(255,255,255,0.03); border-radius: 12px;"; ">
                                <p style="; "margin: 0 0 4px; color: #a0a0a0; font-size: 11px; text-transform: uppercase;"; ">Subject</p>
                                <p style="; "margin: 0; color: #ffffff; font-size: 16px; font-weight: 600;"; ">"];
      escapeHtml subject;
      Q ["</p>
                            </div>
                        </td>
                    </tr>
                    <tr>
                        <td style="; "padding: 0 40px 30px;"; ">
                            <div style="; "background: rgba(0, 212, 255, 0.05); border: 1px solid rgba(0, 212, 255, 0.2); border-radius: 12px; padding: 25px;"; ">
                                <p style="; "margin: 0 0 12px; color: #00d4ff; font-size: 13px; text-transform: uppercase; font-weight: 600;"; ">Message</p>
                                <p style="; "margin: 0; color: #e0e0e0; font-size: 15px; line-height: 1.7; white-space: pre-wrap;"; ">"];
      escapeHtml message;
      Q ["</p>
                            </div>
                        </td>
                    </tr>
                    <tr>
                        <td style="; "padding: 0 40px 30px; text-align: center;"; ">
                            <a href="; "mailto:"];
      escapeHtml email;
      js "?subject=Re: ";
      escapeHtml subject;
      Q [EmptyString; " style="; "display: inline-block; background: linear-gradient(135deg, #00d4ff, #00ffcc); color: #0a0a0f; text-decoration: none; padding: 14px 40px; border-radius: 8px; font-weight: 600; font-size: 14px;"; ">Reply to "];
      escapeHtml (nth 0 (split 32 name) []);
      Q ["</a>
                        </td>
                    </tr>
                    <tr>
                        <td style="; "background: rgba(0,0,0,0.3); padding: 25px 40px; text-align: center; border-top: 1px solid rgba(255,255,255,0.05);"; ">
                            <p style="; "margin: 0 0 8px; color: #ffffff; font-size: 16px; font-weight: 700;"; ">Ajay Jaiswar</p>
                            <p style="; "margin: 0; color: #a0a0a0; font-size: 12px;"; ">QA Analyst & Frontend Developer</p>
                        </td>
                    </tr>
                </table>
            </td>
        </tr>
    </table>
</body>
</html>
    "] ].

(** The four [res.setHeader] calls. *)
Definition cors : list (string * Json) :=
  [("Access-Control-Allow-Credentials", JBool true);
   ("Access-Control-Allow-Origin", JStr (js "*"));
   ("Access-Control-Allow-Methods", JStr (js "GET,OPTIONS,PATCH,DELETE,POST,PUT"));
   ("Access-Control-Allow-Headers", JStr (js "Content-Type"))].

(** The message handed to the transport. *)
Definition mailOptions (env : Env) (o : Oracle)
           (name email subject message : jsstring) : MailOptions :=
  {| from := Q [EmptyString; "Portfolio Contact"; " <"]
             ++ interp (or_ (EMAIL_USER env) (Some (js "noreply@portfolio.com")))
             ++ js ">";
     to := or_ (or_ (EMAIL_TO env) (EMAIL_USER env))
               (Some (js "ajayjaiswar6340@gmail.com"));
     replyTo := email;
     subject := js "Portfolio: " ++ subject;
     html := generateEmailTemplate (htmlDate o) name email subject message;
     text := List.concat
    [ js "Name: ";
      name;
      js "
Email: ";
      email;
      js "
Subject: ";
      subject;
      js "
Message: ";
      message ] |}.

(** The handler exported by api/contact.js. *)
Definition contact (env : Env) (o : Oracle) (req : Request) : M Response :=
  if strictEq (method req) (js "OPTIONS") then
    ret {| status := 200; headers := cors; body := None |}
  else if strictNe (method req) (js "POST") then
    ret {| status := 405; headers := cors;
           body := Some (JObj [("success", JBool false);
                               ("message", JStr (js "Method not allowed"))]) |}
  else
    tryCatch
      (let b := reqBody req in
       let errors := validation b in
       if (0 <? List.length errors)%nat then
         ret {| status := 400; headers := cors;
                body := Some (rejection errors) |}
       else
         match name b, email b, subject_ b, message b with
         | Some name, Some email, Some subject, Some message =>
             transporter <-
               (if negb (not_ (EMAIL_USER env)) && negb (not_ (EMAIL_PASS env))
                then
                  createTransport
                    {| host := interp (or_ (EMAIL_HOST env)
                                           (Some (js "smtp.gmail.com")));
                       port := PortOfEnv (EMAIL_PORT env);
                       secure := false;
                       auth_user := interp (EMAIL_USER env);
                       auth_pass := interp (EMAIL_PASS env) |}
                else
                  testAccount <- createTestAccount (testAccountOutcome o) ;;
                  createTransport
                    {| host := js "smtp.ethereal.email";
                       port := Port587;
                       secure := false;
                       auth_user := user testAccount;
                       auth_pass := pass testAccount |}) ;;
             sendMail transporter
                      (mailOptions env o name email subject message)
                      (sendOutcome o) ;;
             ret {| status := 200; headers := cors; body := Some thankYou |}
         | _, _, _, _ =>
             (* not reached: a field that is not a string fails its check *)
             throw {| err_message := js "Cannot read properties of undefined" |}
         end)
      (fun error =>
         consoleError [LStr (js "Contact form error:"); LErr error] ;;
         ret {| status := 500; headers := cors; body := Some genericFailure |}).

(** The handler exported by api/health.js; [isoNow] is
    [new Date().toISOString()]. *)
Definition health (isoNow : jsstring) : M Response :=
  ret {| status := 200;
         headers := [];
         body := Some (JObj [("status", JStr (js "ok"));
                             ("message", JStr (js "Portfolio API is running"));
                             ("timestamp", JStr isoNow)]) |}.

End Api.

(* ================================================================== *)
(** ** The vocabulary of the specification *)

(** The outcome of the validation block: the handlers answer 400
    exactly when [errors.length > 0]. *)
Inductive ValidationResult :=
| Valid
| Invalid (errors : list jsstring).

Definition validate (b : Body) : ValidationResult :=
  let errors := validation b in
  if (0 <? List.length errors)%nat then Invalid errors else Valid.

(** A submission of four strings. *)
Definition submission (name email subject message : jsstring) : Body :=
  {| name := Some name; email := Some email;
     subject_ := Some subject; message := Some message |}.

(** The condition of each of the four [if] statements. *)
Definition nameFails (b : Body) : bool :=
  not_ (name b)
  || match name b with
     | Some name => (List.length (trim name) <? 2)%nat
     | None => false
     end.

Definition emailFails (b : Body) : bool :=
  not_ (email b)
  || match email b with
     | Some email => negb (isValidEmail email)
     | None => false
     end.

Definition subjectFails (b : Body) : bool :=
  not_ (subject_ b)
  || match subject_ b with
     | Some subject => (List.length (trim subject) <? 3)%nat
     | None => false
     end.

Definition messageFails (b : Body) : bool :=
  not_ (message b)
  || match message b with
     | Some message => (List.length (trim message) <? 20)%nat
     | None => false
     end.

(** The four messages. *)
Definition nameError : jsstring := js "Name is required (min 2 characters)".
Definition emailError : jsstring := js "Valid email address is required".
Definition subjectError : jsstring := js "Subject is required (min 3 characters)".
Definition messageError : jsstring := js "Message is required (min 20 characters)".

(** The email pattern in the words of the specification: a code unit
    that is neither white space nor the at sign, and the shape
    local, at sign, domain, dot, top-level part, each non-empty. *)
Definition plainChar (c : N) : Prop := isWhiteSpace c = false /\ c <> 64.

Definition emailShape (email : jsstring) : Prop :=
  exists local domain tld,
    email = local ++ [64] ++ domain ++ [46] ++ tld /\
    local <> [] /\ domain <> [] /\ tld <> [] /\
    Forall plainChar local /\ Forall plainChar domain /\ Forall plainChar tld.

(** What a sequence of calls did: the messages handed to [sendMail],
    the blocks given to [appendFileSync] with their path, the transports
    built, and the arguments of [console.error]. *)
Definition sent (evs : list Event) : list MailOptions :=
  flat_map (fun ev => match ev with SendMail _ m => [m] | _ => [] end) evs.

Definition appended (evs : list Event) : list (jsstring * jsstring) :=
  flat_map (fun ev => match ev with AppendFile p d => [(p, d)] | _ => [] end)
           evs.

Definition built (evs : list Event) : list TransportOptions :=
  flat_map (fun ev => match ev with CreateTransport o => [o] | _ => [] end)
           evs.

Definition complaints (evs : list Event) : list (list LogArg) :=
  flat_map (fun ev => match ev with ConsoleError args => [args] | _ => [] end)
           evs.

(** [obj[key]] on a JSON object; [None] when there is no such field. *)
Fixpoint lookupField (key : string) (fields : list (string * Json))
  : option Json :=
  match fields with
  | [] => None
  | (k, v) :: rest => if String.eqb k key then Some v else lookupField key rest
  end.

Definition jsonField (key : string) (j : option Json) : option Json :=
  match j with
  | Some (JObj fields) => lookupField key fields
  | _ => None
  end.

(** The same request with another outcome of the file append. *)
Definition withAppend (o : Server.Oracle) (outcome : option JsError)
  : Server.Oracle :=
  {| Server.consoleTime := Server.consoleTime o;
     Server.fileTimestamp := Server.fileTimestamp o;
     Server.htmlDate := Server.htmlDate o;
     Server.textDate := Server.textDate o;
     Server.appendOutcome := outcome;
     Server.sendOutcome := Server.sendOutcome o |}.

(** The condition under which [setupEmailTransporter] builds the
    transport of the configured account. *)
Definition usableCredentials (env : Env) : bool :=
  negb (not_ (EMAIL_USER env)) && negb (not_ (EMAIL_PASS env))
  && strictNe (interp (EMAIL_PASS env)) (js "YOUR_APP_PASSWORD")
  && strictNe (interp (EMAIL_PASS env))
              (js "PASTE_YOUR_16_CHAR_APP_PASSWORD_HERE").



(** The inputs of the end-to-end scenarios of the specification. *)
Definition scenario1 : Body :=
  submission (js "Al") (js "a@b.co") (js "Hi!")
             (js "This message is long enough to pass the check.").

Definition scenario2 : Body :=
  submission (js "A") (js "bad") (js "Hi!") (js "short").


(** A process that has made no call yet, with or without a transport,
    and an environment without mail settings. *)
Definition bareEnv : Env :=
  {| EMAIL_HOST := None; EMAIL_PORT := None; EMAIL_USER := None;
     EMAIL_PASS := None; EMAIL_TO := None;
     SUBMISSIONS_FILE := js "/srv/portfolio/contact_submissions.txt" |}.

Definition freshWorld (t : option Transporter) : World :=
  {| transporter := t; submissions := []; events := [] |}.

Definition etherealTransport : Transporter :=
  {| host := js "smtp.ethereal.email"; port := Port587; secure := false;
     auth_user := js "u@ethereal.email"; auth_pass := js "p" |}.

(** Clock readings and outcomes of one request of the server. *)
Definition serverOracle (append : option JsError)
           (send : JsError + SentInfo) : Server.Oracle :=
  {| Server.consoleTime := js "1/11/2026, 10:15:00 am";
     Server.fileTimestamp := js "Sunday 1 November 2026 at 10:15:00 am";
     Server.htmlDate := js "Sunday 1 November 2026";
     Server.textDate := js "1/11/2026, 10:15:00 am";
     Server.appendOutcome := append;
     Server.sendOutcome := send |}.

Definition apiOracle (send : JsError + SentInfo) : Api.Oracle :=
  {| Api.htmlDate := js "Sunday 1 November 2026";
     Api.testAccountOutcome :=
       inr {| user := js "u@ethereal.email"; pass := js "p" |};
     Api.sendOutcome := send |}.

(** A second call that reads the same timestamps for its message, while
    the other answers of the outside differ. *)
Definition secondCall (o : Server.Oracle) : Server.Oracle :=
  {| Server.consoleTime := js "1/11/2026, 10:15:01 am";
     Server.fileTimestamp := js "Sunday 1 November 2026 at 10:15:01 am";
     Server.htmlDate := Server.htmlDate o;
     Server.textDate := Server.textDate o;
     Server.appendOutcome :=
       Some {| err_message := js "EACCES: permission denied" |};
     Server.sendOutcome := Server.sendOutcome o |}.

Definition post (b : Body) : Api.Request :=
  {| Api.method := js "POST"; Api.reqBody := b |}.

Definition delivered : JsError + SentInfo := inr {| previewUrl := None |}.

Definition refused : JsError + SentInfo :=
  inl {| err_message := js "connect ECONNREFUSED 127.0.0.1:587" |}.

Definition noAccount : Server.SetupOracle :=
  {| Server.verifyOutcome := None;
     Server.testAccountOutcome :=
       inl {| err_message := js "getaddrinfo ENOTFOUND api.nodemailer.com" |} |}.

Definition diskFull : option JsError :=
  Some {| err_message := js "ENOSPC: no space left on device, write" |}.

(* ================================================================== *)
(** ** More vocabulary: transports, blank strings, joined pieces *)

(** The options of the transport of the configured account, as both
    server.js and api/contact.js write them. *)
Definition configuredTransport (env : Env) : TransportOptions :=
  {| host := interp (or_ (EMAIL_HOST env) (Some (js "smtp.gmail.com")));
     port := PortOfEnv (EMAIL_PORT env);
     secure := false;
     auth_user := interp (EMAIL_USER env);
     auth_pass := interp (EMAIL_PASS env) |}.

(** The options of the transport of a test account. *)
Definition testTransport (account : TestAccount) : TransportOptions :=
  {| host := js "smtp.ethereal.email";
     port := Port587;
     secure := false;
     auth_user := user account;
     auth_pass := pass account |}.

(** The messages handed to [sendMail], each with the transport it was
    handed to. *)
Definition handed (evs : list Event) : list (Transporter * MailOptions) :=
  flat_map (fun ev => match ev with SendMail t m => [(t, m)] | _ => [] end)
           evs.

(** The test of api/contact.js before it builds a transport. *)
Definition hasCredentials (env : Env) : bool :=
  negb (not_ (EMAIL_USER env)) && negb (not_ (EMAIL_PASS env)).

(** How many test accounts a sequence of calls asked for. *)
Definition accountRequests (evs : list Event) : nat :=
  List.length
    (filter (fun ev => match ev with CreateTestAccount => true | _ => false end)
            evs).

(** A string of white space only (the empty string is one). *)
Definition blank (s : jsstring) : Prop :=
  Forall (fun c => isWhiteSpace c = true) s.

(** [items.join(sep)] for an array of strings. *)
Fixpoint join (sep : jsstring) (items : list jsstring) : jsstring :=
  match items with
  | [] => []
  | [x] => x
  | x :: rest => x ++ sep ++ join sep rest
  end.

(** The transport api/contact.js builds for one request, when it can:
    the one of the configured account when both credentials are set, the
    one of a fresh test account otherwise. *)
Definition requestTransport (env : Env) (o : Api.Oracle)
  : option TransportOptions :=
  if hasCredentials env then Some (configuredTransport env)
  else match Api.testAccountOutcome o with
       | inr account => Some (testTransport account)
       | inl _ => None
       end.

(** A GET request to api/contact.js with the body of scenario 1. *)
Definition getRequest : Api.Request :=
  {| Api.method := js "GET"; Api.reqBody := scenario1 |}.

(** A start-up with credentials that the provider refuses, while a test
    account can be made. *)
Definition gmailEnv : Env :=
  {| EMAIL_HOST := None; EMAIL_PORT := None;
     EMAIL_USER := Some (js "me@gmail.com");
     EMAIL_PASS := Some (js "abcdabcdabcdabcd");
     EMAIL_TO := None;
     SUBMISSIONS_FILE := js "/srv/portfolio/contact_submissions.txt" |}.

Definition refusedLogin : Server.SetupOracle :=
  {| Server.verifyOutcome :=
       Some {| err_message := js "Invalid login: 535-5.7.8" |};
     Server.testAccountOutcome :=
       inr {| user := js "u@ethereal.email"; pass := js "p" |} |}.

(** A start-up where the provider refuses the credentials and no test
    account can be made either. *)
Definition nothingWorks : Server.SetupOracle :=
  {| Server.verifyOutcome :=
       Some {| err_message := js "Invalid login: 535-5.7.8" |};
     Server.testAccountOutcome :=
       inl {| err_message := js "getaddrinfo ENOTFOUND api.nodemailer.com" |} |}.

(** The code units [escapeHtml] replaces. *)
Definition special (c : N) : Prop :=
  c = 38 \/ c = 60 \/ c = 62 \/ c = 34 \/ c = 39.

(* ================================================================== *)
(** ** The page script: elements, class lists *)

(** [String(value)] of a JSON value, as a template literal or [join]
    renders it.  JSON numbers and null are not in [Json]. *)
Fixpoint toStr (j : Json) : jsstring :=
  match j with
  | JStr s => s
  | JBool true => js "true"
  | JBool false => js "false"
  | JArr items => join (js ",") (map toStr items)
  | JObj _ => js "[object Object]"
  end.

(** Whether a value that may be undefined counts as true. *)
Definition truthy (j : option Json) : bool :=
  match j with
  | None => false
  | Some (JStr []) => false
  | Some (JBool false) => false
  | Some _ => true
  end.

Module Dom.

(** An element of the page that the script reaches by its id. *)
Record Element := {
  classList : list string;
  value : jsstring;
  defaultValue : jsstring;
  textContent : jsstring;
  disabled : bool
}.

(** [classList.contains], [add], [remove] and [toggle]. *)
Definition contains (c : string) (l : list string) : bool :=
  existsb (String.eqb c) l.

Definition add (c : string) (l : list string) : list string :=
  if contains c l then l else l ++ [c].

Definition remove (c : string) (l : list string) : list string :=
  filter (fun x => negb (String.eqb c x)) l.

Definition toggle (c : string) (l : list string) : list string :=
  if contains c l then remove c l else add c l.

Definition classAdd (c : string) (el : Element) : Element :=
  {| classList := add c (classList el); value := value el;
     defaultValue := defaultValue el; textContent := textContent el;
     disabled := disabled el |}.

Definition classRemove (c : string) (el : Element) : Element :=
  {| classList := remove c (classList el); value := value el;
     defaultValue := defaultValue el; textContent := textContent el;
     disabled := disabled el |}.

Definition setTextContent (t : jsstring) (el : Element) : Element :=
  {| classList := classList el; value := value el;
     defaultValue := defaultValue el; textContent := t;
     disabled := disabled el |}.

Definition setDisabled (d : bool) (el : Element) : Element :=
  {| classList := classList el; value := value el;
     defaultValue := defaultValue el; textContent := textContent el;
     disabled := d |}.

(** The elements with an id inside the contact form, in document
    order. *)
Definition Form := list (string * Element).

(** [form.querySelector('#' + id)]: the first element with the id. *)
Fixpoint querySelector (id : string) (form : Form) : option Element :=
  match form with
  | [] => None
  | (i, el) :: rest => if String.eqb i id then Some el else querySelector id rest
  end.

(** A change made to the element that [querySelector] finds. *)
Fixpoint update (id : string) (f : Element -> Element) (form : Form) : Form :=
  match form with
  | [] => []
  | (i, el) :: rest =>
    if String.eqb i id then (i, f el) :: rest
    else (i, el) :: update id f rest
  end.

End Dom.

(* ================================================================== *)
(** ** The page script: toasts *)

Module Toast.

Record Toast := { className : jsstring; innerHTML : jsstring }.

Definition successIcon : jsstring :=
  Q ["<svg viewBox=";
       "0 0 24 24";
       " width=";
       "18";
       " height=";
       "18";
       " fill=";
       "none";
       " stroke=";
       "currentColor";
       " stroke-width=";
       "2";
       "><path d=";
       "M22 11.08V12a10 10 0 11-5.93-9.14";
       "/><polyline points=";
       "22 4 12 14.01 9 11.01";
       "/></svg>"].

Definition errorIcon : jsstring :=
  Q ["<svg viewBox=";
       "0 0 24 24";
       " width=";
       "18";
       " height=";
       "18";
       " fill=";
       "none";
       " stroke=";
       "currentColor";
       " stroke-width=";
       "2";
       "><circle cx=";
       "12";
       " cy=";
       "12";
       " r=";
       "10";
       "/><line x1=";
       "12";
       " y1=";
       "8";
       " x2=";
       "12";
       " y2=";
       "12";
       "/><line x1=";
       "12";
       " y1=";
       "16";
       " x2=";
       "12.01";
       " y2=";
       "16";
       "/></svg>"].

(** [Toast.show(message, type)] on the children of the toast container,
    [None] when the page has no container.  The timers that take the
    toast away later are left out. *)
Definition show (message type : jsstring) (container : option (list Toast))
  : option (list Toast) :=
  match container with
  | None => None
  | Some children =>
    let icon := if strictEq type (js "success") then successIcon
                else errorIcon in
    Some (children
          ++ [{| className := js "toast " ++ type;
                 innerHTML := icon ++ js "<span>" ++ message ++ js "</span>" |}])
  end.

End Toast.

(* ================================================================== *)
(** ** The page script: the contact form *)

Module FormHandler.
Import Dom.

Record Validator := {
  validate : jsstring -> bool;
  message : jsstring
}.

(** The object [validators], in the order of its keys. *)
Definition validators : list (string * Validator) :=
  [("name",
    {| validate := fun value => (2 <=? List.length (trim value))%nat;
       message := js "Name must be at least 2 characters" |});
   ("email",
    {| validate := fun value => RegExp.test emailPattern value;
       message := js "Please enter a valid email address" |});
   ("subject",
    {| validate := fun value => (3 <=? List.length (trim value))%nat;
       message := js "Subject must be at least 3 characters" |});
   ("message",
    {| validate := fun value => (20 <=? List.length (trim value))%nat;
       message := js "Message must be at least 20 characters" |})].

(** [this.validators[fieldName]]; a name that is no key of the object is
    taken as undefined. *)
Fixpoint validatorOf (fieldName : string) (vs : list (string * Validator))
  : option Validator :=
  match vs with
  | [] => None
  | (k, v) :: rest => if String.eqb k fieldName then Some v
                      else validatorOf fieldName rest
  end.

Definition validateField (fieldName : string) (value : jsstring)
           (form : Form) : bool * Form :=
  let validator := validatorOf fieldName validators in
  let input := querySelector fieldName form in
  let errorElement := querySelector (fieldName ++ "Error") form in
  match validator, input with
  | Some validator, Some _ =>
    let isValid := validate validator value in
    if isValid then
      let form := update fieldName (classRemove "error") form in
      let form := update fieldName (classAdd "success") form in
      let form :=
        match errorElement with
        | Some _ =>
          let form :=
            update (fieldName ++ "Error") (setTextContent []) form in
          update (fieldName ++ "Error") (classRemove "visible") form
        | None => form
        end in
      (isValid, form)
    else
      let form := update fieldName (classRemove "success") form in
      let form := update fieldName (classAdd "error") form in
      let form :=
        match errorElement with
        | Some _ =>
          let form :=
            update (fieldName ++ "Error")
                   (setTextContent (message validator)) form in
          update (fieldName ++ "Error") (classAdd "visible") form
        | None => form
        end in
      (isValid, form)
  | _, _ => (true, form)
  end.

Definition clearFieldError (fieldName : string) (form : Form) : Form :=
  let input := querySelector fieldName form in
  let errorElement := querySelector (fieldName ++ "Error") form in
  let form :=
    match input with
    | Some _ => update fieldName (classRemove "error") form
    | None => form
    end in
  match errorElement with
  | Some _ => update (fieldName ++ "Error") (classRemove "visible") form
  | None => form
  end.

(** The callback of the loop of [validateForm]: [acc] holds [isValid]
    and the form so far. *)
Definition validateStep (acc : bool * Form) (fieldName : string)
  : bool * Form :=
  let (isValid, form) := acc in
  match querySelector fieldName form with
  | Some input =>
    let (ok, form) := validateField fieldName (value input) form in
    (if negb ok then false else isValid, form)
  | None => (isValid, form)
  end.

(** [validateForm]: the loop over [Object.keys(this.validators)]. *)
Definition validateForm (form : Form) : bool * Form :=
  fold_left validateStep (map fst validators) (true, form).

(** What the listener of the submit event works on: the form, the
    submit button, the children of the toast container, the bodies
    handed to [fetch] and the lines of [console.error]. *)
Record Page := {
  form : Form;
  submitBtn : option Element;
  toastContainer : option (list Toast.Toast);
  posted : list Json;
  errorLog : list (list LogArg)
}.

Definition withForm (f : Form) (p : Page) : Page :=
  {| form := f; submitBtn := submitBtn p; toastContainer := toastContainer p;
     posted := posted p; errorLog := errorLog p |}.

Definition toast (message type : jsstring) (p : Page) : Page :=
  {| form := form p; submitBtn := submitBtn p;
     toastContainer := Toast.show message type (toastContainer p);
     posted := posted p; errorLog := errorLog p |}.

Definition setLoadingState (isLoading : bool) (p : Page) : Page :=
  match submitBtn p with
  | None => p
  | Some btn =>
    let btn :=
      if isLoading then setDisabled true (classAdd "loading" btn)
      else setDisabled false (classRemove "loading" btn) in
    {| form := form p; submitBtn := Some btn;
       toastContainer := toastContainer p;
       posted := posted p; errorLog := errorLog p |}
  end.

(** [DOM.contactForm.reset()], then the loop that takes the classes
    success and error off every element of class form-input. *)
Definition resetForm (f : Form) : Form :=
  map (fun entry : string * Element =>
         let (id, el) := entry in
         let el :=
           {| classList := classList el; value := defaultValue el;
              defaultValue := defaultValue el;
              textContent := textContent el; disabled := disabled el |} in
         (id, if contains "form-input" (classList el)
              then classRemove "error" (classRemove "success" el)
              else el))
      f.

(** The catch block of the listener. *)
Definition caught (error : JsError) (p : Page) : Page :=
  toast (js "Network error. Please try again later.") (js "error")
        {| form := form p; submitBtn := submitBtn p;
           toastContainer := toastContainer p; posted := posted p;
           errorLog := errorLog p
                       ++ [[LStr (js "Form submission error:"); LErr error]] |}.

(** The listener of the submit event.  [data] is the object made from
    the form data, [net] what [fetch] and [response.json()] give: the
    parsed body, or the error one of them throws. *)
Definition submit (data : Json) (net : JsError + Json) (p : Page) : Page :=
  let (ok, f) := validateForm (form p) in
  let p := withForm f p in
  if negb ok then
    toast (js "Please fill in all fields correctly") (js "error") p
  else
    let p := setLoadingState true p in
    let p :=
      let p := {| form := form p; submitBtn := submitBtn p;
                  toastContainer := toastContainer p;
                  posted := posted p ++ [data]; errorLog := errorLog p |} in
      match net with
      | inl error => caught error p
      | inr result =>
        if truthy (jsonField "success" (Some result)) then
          let shown :=
            if truthy (jsonField "message" (Some result))
            then match jsonField "message" (Some result) with
                 | Some m => toStr m
                 | None => js "undefined"
                 end
            else js "Message sent successfully!" in
          let p := toast shown (js "success") p in
          withForm (resetForm (form p)) p
        else
          if truthy (jsonField "errors" (Some result)) then
            match jsonField "errors" (Some result) with
            | Some (JArr items) =>
              toast (join (js ", ") (map toStr items)) (js "error") p
            | _ =>
              caught {| err_message :=
                          js "result.errors.join is not a function" |} p
            end
          else
            let errorMsg :=
              if truthy (jsonField "message" (Some result))
              then match jsonField "message" (Some result) with
                   | Some m => toStr m
                   | None => js "undefined"
                   end
              else js "Failed to send message" in
            toast errorMsg (js "error") p
      end in
    setLoadingState false p.

End FormHandler.

(* ================================================================== *)
(** ** The page script: the mobile menu *)

Module Navigation.
Import Dom.

(** What the listeners of [setupMobileMenu] read and write: the class
    lists of the hamburger button and of the menu, the attribute
    aria-expanded of the button, and [document.body.style.overflow]. *)
Record Menu := {
  navToggle : list string;
  ariaExpanded : option jsstring;
  navMenu : list string;
  overflow : jsstring
}.

Inductive MenuEvent :=
| ToggleClick
| LinkClick
| KeyDown (key : jsstring).

Definition close (m : Menu) : Menu :=
  {| navToggle := remove "active" (navToggle m);
     ariaExpanded := ariaExpanded m;
     navMenu := remove "active" (navMenu m);
     overflow := [] |}.

(** One event, handled by the listener registered for it. *)
Definition handle (m : Menu) (ev : MenuEvent) : Menu :=
  match ev with
  | ToggleClick =>
    let t := toggle "active" (navToggle m) in
    let n := toggle "active" (navMenu m) in
    {| navToggle := t;
       ariaExpanded := Some (if contains "active" t then js "true"
                             else js "false");
       navMenu := n;
       overflow := if contains "active" n then js "hidden" else [] |}
  | LinkClick => close m
  | KeyDown key =>
    if strictEq key (js "Escape") && contains "active" (navMenu m)
    then close m
    else m
  end.

(** The menu is open. *)
Definition isOpen (m : Menu) : bool := contains "active" (navMenu m).

(** The button, the menu and the page scroll lock say the same. *)
Definition consistent (m : Menu) : Prop :=
  contains "active" (navToggle m) = isOpen m
  /\ overflow m = (if isOpen m then js "hidden" else []).

End Navigation.

(** The verdict on the field [k] of a form: true when the field has no
    validator or no input. *)
Definition verdict (form : Dom.Form) (k : string) : bool :=
  match FormHandler.validatorOf k FormHandler.validators,
        Dom.querySelector k form with
  | Some vd, Some input => FormHandler.validate vd (Dom.value input)
  | _, _ => true
  end.

(** A form with the four inputs and their error elements, filled with
    scenario 1, and a page around it. *)
Definition blankElement : Dom.Element :=
  {| Dom.classList := ["form-input"]; Dom.value := [];
     Dom.defaultValue := []; Dom.textContent := []; Dom.disabled := false |}.

Definition inputOf (v : jsstring) : Dom.Element :=
  {| Dom.classList := ["form-input"]; Dom.value := v;
     Dom.defaultValue := []; Dom.textContent := []; Dom.disabled := false |}.

Definition filledForm (n e s m : jsstring) : Dom.Form :=
  [("name", inputOf n); ("nameError", blankElement);
   ("email", inputOf e); ("emailError", blankElement);
   ("subject", inputOf s); ("subjectError", blankElement);
   ("message", inputOf m); ("messageError", blankElement)].

Definition pageOf (f : Dom.Form) : FormHandler.Page :=
  {| FormHandler.form := f;
     FormHandler.submitBtn := Some blankElement;
     FormHandler.toastContainer := Some [];
     FormHandler.posted := [];
     FormHandler.errorLog := [] |}.

Definition closedMenu : Navigation.Menu :=
  {| Navigation.navToggle := ["nav-toggle"];
     Navigation.ariaExpanded := Some (js "false");
     Navigation.navMenu := ["nav-menu"];
     Navigation.overflow := [] |}.

(** The toast of kind success or error with a text, as [Toast.show]
    builds it. *)
Definition toastOf (success : bool) (text : jsstring) : Toast.Toast :=
  {| Toast.className := if success then js "toast success"
                        else js "toast error";
     Toast.innerHTML := (if success then Toast.successIcon
                         else Toast.errorIcon)
                        ++ js "<span>" ++ text ++ js "</span>" |}.

(** The text that the page shows for the answer of a handler to the
    submission [b]: the message of the body, or its errors joined. *)
Definition shownFor (status : N) (b : Body) : jsstring :=
  if status =? 200
  then js "Thank you for your message! I will get back to you soon."
  else if status =? 400 then join (js ", ") (validation b)
  else js "Sorry, there was an error sending your message. Please try again later.".

(* ================================================================== *)
(** ** The helpers on examples *)

Example js_ascii : js "a@b.co" = [97; 64; 98; 46; 99; 111].
Proof. reflexivity. Qed.

Example js_arrow_and_calendar :
  js "→📅" = [8594; 55357; 56517].
Proof. reflexivity. Qed.

Example Q_attr : Q ["lang="; "en"; ">"] = js "lang=" ++ [34] ++ js "en" ++ [34] ++ js ">".
Proof. reflexivity. Qed.

Example trim_ex : trim (js "  a b
 ") = js "a b".
Proof. reflexivity. Qed.

Example split_ex : split 32 (js "Ada  L") = [js "Ada"; []; js "L"].
Proof. reflexivity. Qed.

(** [length] counts code units: one emoji outside the basic plane is a
    name of length 2. *)
Example emoji_length : List.length (trim (js " 😀 ")) = 2%nat.
Proof. reflexivity. Qed.

Example email_ok : isValidEmail (js "a@b.co") = true.
Proof. reflexivity. Qed.

Example email_bad : isValidEmail (js "bad") = false.
Proof. reflexivity. Qed.

Example email_dots : isValidEmail (js "a.b@c.d.e") = true.
Proof. reflexivity. Qed.

Example email_two_at : isValidEmail (js "a@b@c.d") = false.
Proof. reflexivity. Qed.

Example escape_ex : escapeHtml (js "<a href='x'>&") = js "&lt;a href=&#039;x&#039;&gt;&amp;".
Proof. reflexivity. Qed.

(* ================================================================== *)
(** ** The matcher decides the words of a regular expression *)

Module RegExpFacts.
Import RegExp.

Lemma seq_inv r1 r2 s :
  lang (Seq r1 r2) s -> exists u v, s = u ++ v /\ lang r1 u /\ lang r2 v.
Proof. inversion 1; subst. eauto. Qed.

Lemma or_inv r1 r2 s : lang (Or r1 r2) s -> lang r1 s \/ lang r2 s.
Proof. inversion 1; subst; auto. Qed.

Lemma class_inv p s : lang (Class p) s -> exists c, s = [c] /\ p c = true.
Proof. inversion 1; subst. eauto. Qed.

Lemma nullable_lang r : nullable r = true <-> lang r [].
Proof.
  induction r; simpl.
  - split; [discriminate | inversion 1].
  - split; [constructor | reflexivity].
  - split; [discriminate | inversion 1].
  - rewrite andb_true_iff, IHr1, IHr2. split.
    + intros [H1 H2]. exact (lang_seq (u := []) H1 H2).
    + intros H. apply seq_inv in H. destruct H as (u & v & Heq & Hu & Hv).
      symmetry in Heq. apply app_eq_nil in Heq. destruct Heq; subst. auto.
  - rewrite orb_true_iff, IHr1, IHr2. split.
    + intros [H|H]; [apply lang_or_l | apply lang_or_r]; assumption.
    + apply or_inv.
  - split; [constructor | reflexivity].
Qed.

(** A non-empty word of [r*] starts with a non-empty word of [r]. *)
Lemma star_cons_inv r c s :
  lang (Star r) (c :: s) ->
  exists u v, s = u ++ v /\ lang r (c :: u) /\ lang (Star r) v.
Proof.
  intros H. remember (Star r) as r' eqn:Er. remember (c :: s) as w eqn:Ew.
  revert s Ew.
  induction H as [| | | | | r0 | r0 u v Hu _ Hv IHv]; try discriminate.
  injection Er as ->. intros s Ew.
  destruct u as [|a u'].
  - simpl in Ew. apply IHv; auto.
  - simpl in Ew. injection Ew as -> <-. exists u', v. auto.
Qed.

Lemma deriv_lang c r : forall s, lang (deriv c r) s <-> lang r (c :: s).
Proof.
  induction r; intros s; simpl.
  - split; inversion 1.
  - split; inversion 1.
  - destruct (p c) eqn:Hp; split; intros H.
    + inversion H; subst. constructor. assumption.
    + apply class_inv in H. destruct H as (c' & Heq & _).
      injection Heq as <- ->. constructor.
    + inversion H.
    + apply class_inv in H. destruct H as (c' & Heq & Hc').
      injection Heq as <- ->. congruence.
  - destruct (nullable r1) eqn:Hn; split; intros H.
    + apply or_inv in H. destruct H as [H|H].
      * apply seq_inv in H. destruct H as (u & v & -> & Hu & Hv).
        apply IHr1 in Hu. exact (lang_seq (u := c :: u) Hu Hv).
      * apply IHr2 in H. apply nullable_lang in Hn.
        exact (lang_seq (u := []) Hn H).
    + apply seq_inv in H. destruct H as (u & v & Heq & Hu & Hv).
      destruct u as [|a u'].
      * simpl in Heq. subst v. apply lang_or_r. apply IHr2. assumption.
      * simpl in Heq. injection Heq as <- ->. apply lang_or_l.
        apply lang_seq; [apply IHr1|]; assumption.
    + apply seq_inv in H. destruct H as (u & v & -> & Hu & Hv).
      apply IHr1 in Hu. exact (lang_seq (u := c :: u) Hu Hv).
    + apply seq_inv in H. destruct H as (u & v & Heq & Hu & Hv).
      destruct u as [|a u'].
      * apply nullable_lang in Hu. congruence.
      * simpl in Heq. injection Heq as <- ->.
        apply lang_seq; [apply IHr1|]; assumption.
  - split; intros H.
    + apply or_inv in H.
      destruct H as [H|H]; [apply lang_or_l; apply IHr1 | apply lang_or_r; apply IHr2];
        assumption.
    + apply or_inv in H.
      destruct H as [H|H]; [apply lang_or_l; apply IHr1 | apply lang_or_r; apply IHr2];
        assumption.
  - split; intros H.
    + apply seq_inv in H. destruct H as (u & v & -> & Hu & Hv).
      apply IHr in Hu. exact (lang_star_cons (u := c :: u) Hu Hv).
    + apply star_cons_inv in H. destruct H as (u & v & -> & Hu & Hv).
      apply lang_seq; [apply IHr|]; assumption.
Qed.

Lemma test_lang r s : test r s = true <-> lang r s.
Proof.
  revert r. induction s as [|c s IH]; intros r; simpl.
  - apply nullable_lang.
  - rewrite IH. apply deriv_lang.
Qed.

(** The words of [[p]*] and of [[p]+]. *)
Lemma star_class p s :
  lang (Star (Class p)) s <-> Forall (fun c => p c = true) s.
Proof.
  split.
  - induction s as [|c s IH]; intros H; constructor.
    + apply star_cons_inv in H. destruct H as (u & v & _ & Hu & _).
      inversion Hu; subst. assumption.
    + apply IH. apply star_cons_inv in H. destruct H as (u & v & -> & Hu & Hv).
      inversion Hu; subst. assumption.
  - induction 1 as [|c s Hc _ IH]; [constructor|].
    exact (lang_star_cons (u := [c]) (lang_class p c Hc) IH).
Qed.

Lemma plus_class p s :
  lang (Plus (Class p)) s <-> s <> [] /\ Forall (fun c => p c = true) s.
Proof.
  unfold Plus. split.
  - intros H. apply seq_inv in H. destruct H as (u & v & -> & Hu & Hv).
    apply class_inv in Hu. destruct Hu as (c & -> & Hc).
    apply star_class in Hv. simpl.
    split; [discriminate | constructor; assumption].
  - intros [Hne Hall]. destruct s as [|c s]; [congruence|].
    inversion Hall; subst.
    apply (lang_seq (u := [c])); [constructor; assumption | apply star_class; assumption].
Qed.

Lemma chr_lang c s : lang (Chr c) s <-> s = [c].
Proof.
  unfold Chr. split.
  - intros H. apply class_inv in H. destruct H as (c' & -> & Hc).
    apply N.eqb_eq in Hc. congruence.
  - intros ->. constructor. apply N.eqb_refl.
Qed.

End RegExpFacts.

(* ================================================================== *)
(** ** Trimming *)

Lemma trimStart_spec s :
  exists a,
    s = a ++ trimStart s
    /\ Forall (fun c => isWhiteSpace c = true) a
    /\ match trimStart s with
       | c :: _ => isWhiteSpace c = false
       | [] => True
       end.
Proof.
  induction s as [|c s (a & Hs & Ha & Hh)].
  - exists []. simpl. auto.
  - simpl. destruct (isWhiteSpace c) eqn:Hc.
    + exists (c :: a). simpl. rewrite <- Hs. auto.
    + exists []. simpl. auto.
Qed.

(** [trim] takes white space off both ends and nothing else: what is
    left neither starts nor ends with white space. *)
Lemma trim_spec s :
  exists a b,
    s = a ++ trim s ++ b
    /\ Forall (fun c => isWhiteSpace c = true) a
    /\ Forall (fun c => isWhiteSpace c = true) b
    /\ match trim s with
       | c :: _ => isWhiteSpace c = false
       | [] => True
       end
    /\ match rev (trim s) with
       | c :: _ => isWhiteSpace c = false
       | [] => True
       end.
Proof.
  destruct (trimStart_spec s) as (a & Hs & Ha & Hh).
  destruct (trimStart_spec (rev (trimStart s))) as (b & Hr & Hb & Hl).
  assert (Ht : trimStart s = trim s ++ rev b).
  { unfold trim, trimEnd. rewrite <- rev_app_distr, <- Hr, rev_involutive.
    reflexivity. }
  exists a, (rev b). split; [|split; [|split; [|split]]].
  - rewrite <- Ht. exact Hs.
  - exact Ha.
  - apply Forall_rev. exact Hb.
  - rewrite Ht in Hh. destruct (trim s); [exact I | exact Hh].
  - unfold trim, trimEnd. rewrite rev_involutive. exact Hl.
Qed.

(* ================================================================== *)
(** ** Validation *)

Lemma notSpaceAt_plain c : notSpaceAt c = true <-> plainChar c.
Proof.
  unfold notSpaceAt, plainChar.
  rewrite negb_true_iff, orb_false_iff, N.eqb_neq. reflexivity.
Qed.

Lemma Forall_notSpaceAt_plain s :
  Forall (fun c => notSpaceAt c = true) s <-> Forall plainChar s.
Proof.
  split; apply Forall_impl; intros c; apply notSpaceAt_plain.
Qed.

(** The regular expression of [isValidEmail] accepts the strings of the
    shape the specification describes, and no other. *)
Lemma isValidEmail_shape email : isValidEmail email = true <-> emailShape email.
Proof.
  unfold isValidEmail. rewrite RegExpFacts.test_lang. unfold emailPattern, emailShape.
  split.
  - intros H.
    apply RegExpFacts.seq_inv in H. destruct H as (l & r1 & -> & Hl & H).
    apply RegExpFacts.seq_inv in H. destruct H as (a & r2 & -> & Ha & H).
    apply RegExpFacts.seq_inv in H. destruct H as (d & r3 & -> & Hd & H).
    apply RegExpFacts.seq_inv in H. destruct H as (p & t & -> & Hp & Ht).
    apply RegExpFacts.chr_lang in Ha, Hp. subst a p.
    apply RegExpFacts.plus_class in Hl, Hd, Ht.
    destruct Hl as [Hl1 Hl2], Hd as [Hd1 Hd2], Ht as [Ht1 Ht2].
    apply Forall_notSpaceAt_plain in Hl2, Hd2, Ht2.
    exists l, d, t. repeat split; assumption.
  - intros (l & d & t & -> & Hl & Hd & Ht & Al & Ad & At).
    apply Forall_notSpaceAt_plain in Al, Ad, At.
    apply RegExp.lang_seq; [apply RegExpFacts.plus_class; auto|].
    apply RegExp.lang_seq; [apply RegExpFacts.chr_lang; reflexivity|].
    apply RegExp.lang_seq; [apply RegExpFacts.plus_class; auto|].
    apply RegExp.lang_seq; [apply RegExpFacts.chr_lang; reflexivity|].
    apply RegExpFacts.plus_class; auto.
Qed.

(** The array [errors] at the end of the validation block. *)
Lemma validation_eq b :
  validation b =
  (if nameFails b then [nameError] else [])
  ++ (if emailFails b then [emailError] else [])
  ++ (if subjectFails b then [subjectError] else [])
  ++ (if messageFails b then [messageError] else []).
Proof.
  unfold validation, nameFails, emailFails, subjectFails, messageFails, push,
    nameError, emailError, subjectError, messageError.
  destruct (not_ (name b) || _), (not_ (email b) || _),
    (not_ (subject_ b) || _), (not_ (message b) || _); reflexivity.
Qed.

Lemma validation_nil b :
  validation b = [] <->
  nameFails b = false /\ emailFails b = false
  /\ subjectFails b = false /\ messageFails b = false.
Proof.
  rewrite validation_eq.
  destruct (nameFails b), (emailFails b), (subjectFails b), (messageFails b);
    simpl; split; try discriminate; try tauto;
    intros (? & ? & ? & ?); discriminate.
Qed.

Lemma validate_Valid b : validate b = Valid <-> validation b = [].
Proof.
  unfold validate. destruct (validation b) as [|e l]; simpl.
  - tauto.
  - split; discriminate.
Qed.

Lemma validate_Invalid b errors :
  validate b = Invalid errors <-> validation b = errors /\ errors <> [].
Proof.
  unfold validate. destruct (validation b) as [|e l]; simpl.
  - split; [discriminate | intros [<- H]; congruence].
  - split.
    + intros H. injection H as <-. split; [reflexivity | discriminate].
    + intros [<- _]. reflexivity.
Qed.

(** A length check on a string: the guard on the empty string adds
    nothing when the least length is positive. *)
Lemma length_check s n :
  (0 < n)%nat ->
  not_ (Some s) || (List.length (trim s) <? n)%nat = false
  <-> (n <= List.length (trim s))%nat.
Proof.
  intros Hn. destruct s as [|c s'].
  - simpl. split; [discriminate | lia].
  - change (not_ (Some (c :: s'))) with false. rewrite orb_false_l.
    rewrite Nat.ltb_ge. reflexivity.
Qed.

Lemma email_check s :
  not_ (Some s) || negb (isValidEmail s) = false <-> emailShape s.
Proof.
  rewrite <- isValidEmail_shape. destruct s as [|c s'].
  - simpl. split; discriminate.
  - change (not_ (Some (c :: s'))) with false. rewrite orb_false_l.
    apply negb_false_iff.
Qed.

Lemma fails_submission n e s m :
  nameFails (submission n e s m)
  = not_ (Some n) || (List.length (trim n) <? 2)%nat
  /\ emailFails (submission n e s m) = not_ (Some e) || negb (isValidEmail e)
  /\ subjectFails (submission n e s m)
     = not_ (Some s) || (List.length (trim s) <? 3)%nat
  /\ messageFails (submission n e s m)
     = not_ (Some m) || (List.length (trim m) <? 20)%nat.
Proof. repeat split. Qed.

(** C1. For four strings, validation says Valid exactly when the trimmed
    name has at least 2 code units, the email has the shape
    local at-sign domain dot top-level part (each part non-empty, made
    of code units that are neither white space nor the at sign), the
    trimmed subject has at least 3 code units and the trimmed message at
    least 20. *)
Theorem validate_valid_iff (name email subject message : jsstring) :
  validate (submission name email subject message) = Valid <->
  (2 <= List.length (trim name))%nat
  /\ emailShape email
  /\ (3 <= List.length (trim subject))%nat
  /\ (20 <= List.length (trim message))%nat.
Proof.
  rewrite validate_Valid, validation_nil.
  destruct (fails_submission name email subject message) as (-> & -> & -> & ->).
  rewrite !length_check by lia. rewrite email_check. reflexivity.
Qed.

(** Four distinct items, each kept or left out by its own flag. *)
Lemma kept_items {A} (f1 f2 f3 f4 : bool) (m1 m2 m3 m4 : A) :
  NoDup [m1; m2; m3; m4] ->
  let l := (if f1 then [m1] else []) ++ (if f2 then [m2] else [])
           ++ (if f3 then [m3] else []) ++ (if f4 then [m4] else []) in
  (In m1 l <-> f1 = true) /\ (In m2 l <-> f2 = true)
  /\ (In m3 l <-> f3 = true) /\ (In m4 l <-> f4 = true)
  /\ l = map snd (filter fst [(f1, m1); (f2, m2); (f3, m3); (f4, m4)]).
Proof.
  intros Hd.
  assert (H12 : m1 <> m2) by (intros ->; inversion Hd; simpl in *; tauto).
  assert (H13 : m1 <> m3) by (intros ->; inversion Hd; simpl in *; tauto).
  assert (H14 : m1 <> m4) by (intros ->; inversion Hd; simpl in *; tauto).
  inversion Hd as [|? ? _ Hd']; subst.
  assert (H23 : m2 <> m3) by (intros ->; inversion Hd'; simpl in *; tauto).
  assert (H24 : m2 <> m4) by (intros ->; inversion Hd'; simpl in *; tauto).
  inversion Hd' as [|? ? _ Hd'']; subst.
  assert (H34 : m3 <> m4) by (intros ->; inversion Hd''; simpl in *; tauto).
  clear Hd Hd' Hd''.
  destruct f1, f2, f3, f4; simpl; intuition congruence.
Qed.

Lemma errors_distinct : NoDup [nameError; emailError; subjectError; messageError].
Proof.
  assert (H : forall a b : jsstring, (if list_eq_dec N.eq_dec a b then true else false) = false -> a <> b).
  { intros a b E ->. destruct (list_eq_dec N.eq_dec b b); [discriminate | congruence]. }
  repeat constructor; simpl; intros F;
    repeat (destruct F as [F|F]; [revert F; apply H; vm_compute; reflexivity|]);
    exact F.
Qed.

(** C4. The list of errors is non-empty exactly when the result is
    Invalid, and Invalid carries that list; each message is in the list
    exactly when the check of its own field fails, whatever the other
    fields are; and the list is the fixed sequence name, email, subject,
    message with the messages of the passing checks left out, the four
    messages being distinct. *)
Theorem errors_ordered_and_independent b :
  (validation b <> [] <-> exists errors, validate b = Invalid errors)
  /\ (forall errors, validate b = Invalid errors -> errors = validation b)
  /\ (In nameError (validation b) <-> nameFails b = true)
  /\ (In emailError (validation b) <-> emailFails b = true)
  /\ (In subjectError (validation b) <-> subjectFails b = true)
  /\ (In messageError (validation b) <-> messageFails b = true)
  /\ (forall b', name b' = name b -> nameFails b' = nameFails b)
  /\ (forall b', email b' = email b -> emailFails b' = emailFails b)
  /\ (forall b', subject_ b' = subject_ b -> subjectFails b' = subjectFails b)
  /\ (forall b', message b' = message b -> messageFails b' = messageFails b)
  /\ validation b
     = map snd (filter fst [(nameFails b, nameError);
                            (emailFails b, emailError);
                            (subjectFails b, subjectError);
                            (messageFails b, messageError)])
  /\ NoDup [nameError; emailError; subjectError; messageError].
Proof.
  split; [|split].
  - split.
    + intros H. exists (validation b). apply validate_Invalid. auto.
    + intros [errors H]. apply validate_Invalid in H. destruct H as [-> H].
      assumption.
  - intros errors H. apply validate_Invalid in H. destruct H as [<- _].
    reflexivity.
  - rewrite validation_eq.
    destruct (kept_items (nameFails b) (emailFails b) (subjectFails b)
                (messageFails b) errors_distinct) as (H1 & H2 & H3 & H4 & H5).
    split; [exact H1|]. split; [exact H2|]. split; [exact H3|].
    split; [exact H4|].
    split; [intros b' E; unfold nameFails; rewrite E; reflexivity|].
    split; [intros b' E; unfold emailFails; rewrite E; reflexivity|].
    split; [intros b' E; unfold subjectFails; rewrite E; reflexivity|].
    split; [intros b' E; unfold messageFails; rewrite E; reflexivity|].
    split; [exact H5 | exact errors_distinct].
Qed.

(* ================================================================== *)
(** ** Rejected submissions *)

Lemma server_contact_rejected env o b w :
  validation b <> [] ->
  Server.contact env o b w
  = (Normal {| status := 400; headers := [];
               body := Some (rejection (validation b)) |}, w).
Proof.
  intros H. unfold Server.contact, tryCatch.
  destruct (validation b) as [|e l] eqn:E; [congruence|].
  reflexivity.
Qed.

Lemma api_contact_rejected env o b w :
  validation b <> [] ->
  Api.contact env o (post b) w
  = (Normal {| status := 400; headers := Api.cors;
               body := Some (rejection (validation b)) |}, w).
Proof.
  intros H. unfold Api.contact, post, tryCatch.
  cbn [Api.method Api.reqBody].
  change (strictEq (js "POST") (js "OPTIONS")) with false.
  change (strictNe (js "POST") (js "POST")) with false.
  cbv iota.
  destruct (validation b) as [|e l] eqn:E; [congruence|].
  reflexivity.
Qed.

(** C2. When validation fails, both handlers answer 400 with the list of
    errors and leave the world as it was: no console line, no append to
    the submissions file, no transport built, no send, the transporter
    variable untouched.  For the input of scenario 2 the list has exactly
    the three messages of the name, email and message checks. *)
Theorem rejected_without_effect env o oa b w :
  validation b <> [] ->
  Server.contact env o b w
  = (Normal {| status := 400; headers := [];
               body := Some (rejection (validation b)) |}, w)
  /\ Api.contact env oa (post b) w
     = (Normal {| status := 400; headers := Api.cors;
                  body := Some (rejection (validation b)) |}, w)
  /\ validation scenario2 = [nameError; emailError; messageError].
Proof.
  intros H. split; [|split].
  - apply server_contact_rejected. assumption.
  - apply api_contact_rejected. assumption.
  - vm_compute. reflexivity.
Qed.

(** The rejection theorem on scenario 2, in a process that has a
    transport. *)
Lemma rejected_without_effect_witness :
  validation scenario2 <> []
  /\ Server.contact bareEnv (serverOracle None delivered) scenario2
       (freshWorld (Some etherealTransport))
     = (Normal {| status := 400; headers := [];
                  body := Some (rejection (validation scenario2)) |},
        freshWorld (Some etherealTransport)).
Proof.
  split; [vm_compute; discriminate|].
  apply (@rejected_without_effect bareEnv (serverOracle None delivered)
           (apiOracle delivered) scenario2 (freshWorld (Some etherealTransport))).
  vm_compute; discriminate.
Defined.

(* ================================================================== *)
(** ** Accepted submissions *)

Lemma valid_fields b :
  validation b = [] -> exists n e s m, b = submission n e s m.
Proof.
  intros H. apply validation_nil in H. destruct H as (Hn & He & Hs & Hm).
  destruct b as [[n|] [e|] [s|] [m|]]; try discriminate.
  exists n, e, s, m. reflexivity.
Qed.

(** The answer of server.js to a valid submission: the failure message
    when a transport exists and its send fails, the thanks otherwise. *)
Lemma server_contact_accepted env o b w :
  validation b = [] ->
  fst (Server.contact env o b w)
  = Normal (match transporter w, Server.sendOutcome o with
            | Some _, inl _ =>
                {| status := 500; headers := []; body := Some genericFailure |}
            | _, _ =>
                {| status := 200; headers := []; body := Some thankYou |}
            end).
Proof.
  intros Hv. destruct (valid_fields _ Hv) as (n & em & s & m & ->).
  destruct w as [tr sub evs], o as [ct ft hd td ao so].
  unfold Server.contact. rewrite Hv.
  destruct tr as [t|], ao as [ae|], so as [se|[[url|]]]; reflexivity.
Qed.

(** Scenario 1 on server.js with a working transport: one block in the
    file, one message handed to the transport, the answer 200. *)
Example scenario1_delivered :
  validate scenario1 = Valid
  /\ fst (Server.contact bareEnv (serverOracle None delivered) scenario1
            (freshWorld (Some etherealTransport)))
     = Normal {| status := 200; headers := []; body := Some thankYou |}
  /\ List.length
       (appended (events (snd (Server.contact bareEnv
                                 (serverOracle None delivered) scenario1
                                 (freshWorld (Some etherealTransport))))))
     = 1%nat
  /\ List.length
       (sent (events (snd (Server.contact bareEnv
                             (serverOracle None delivered) scenario1
                             (freshWorld (Some etherealTransport))))))
     = 1%nat.
Proof. vm_compute. repeat split. Qed.

(** Running a handler: the monad and the calls are unfolded, the
    templates are left as they are. *)
Ltac run :=
  cbv beta iota zeta delta
    [Server.contact Api.contact Server.saveSubmissionToFile
     Server.setupEmailTransporter Server.setupTestEmail Server.health Api.health
     tryCatch bind ret throw emit consoleLog consoleError appendFileSync
     getTransporter setTransporter createTransport createTestAccount sendMail
     transporter submissions events previewUrl fst snd
     Nat.ltb Nat.leb Datatypes.length
     Server.appendOutcome Server.sendOutcome Server.fileTimestamp
     Server.verifyOutcome Server.testAccountOutcome
     Api.sendOutcome Api.testAccountOutcome withAppend
     submission name email subject_ message post Api.method Api.reqBody].

Ltac tidy :=
  unfold sent, appended, built, complaints;
  rewrite ?flat_map_app; cbn [flat_map app]; rewrite ?app_nil_r;
  rewrite <- ?app_assoc; cbn [app].

(** The method test of api/contact.js lets a POST through. *)
Ltac api_post :=
  unfold Api.contact; cbn [post Api.method Api.reqBody];
  change (strictEq (js "POST") (js "OPTIONS")) with false;
  change (strictNe (js "POST") (js "POST")) with false;
  cbv iota.

(** C3, as the code has it. When the send fails on a valid submission,
    server.js has called the file append before the send (and the block
    is in the file unless the append itself failed), answers 500 with
    success false and the fixed message whatever the error is, and the
    error goes to console.error only.  api/contact.js answers the same
    500 and logs the error the same way, but writes no log entry: it
    never appends to a file. *)
Theorem send_failure_generic_500 env o oa b w t e :
  validation b = [] ->
  transporter w = Some t ->
  Server.sendOutcome o = inl e ->
  Api.sendOutcome oa = inl e ->
  fst (Server.contact env o b w)
  = Normal {| status := 500; headers := []; body := Some genericFailure |}
  /\ (exists n em s m,
        b = submission n em s m
        /\ (exists pre mid,
              events (snd (Server.contact env o b w))
              = events w ++ pre
                ++ AppendFile (SUBMISSIONS_FILE env)
                     (Server.entry (Server.fileTimestamp o) n em s m)
                   :: mid
                ++ [SendMail t (Server.mailOptions env o n em s m);
                    ConsoleError [LStr (js "❌ Contact form error:"); LErr e]])
        /\ (Server.appendOutcome o = None ->
            submissions (snd (Server.contact env o b w))
            = submissions w ++ Server.entry (Server.fileTimestamp o) n em s m))
  /\ fst (Api.contact env oa (post b) w)
     = Normal {| status := 500; headers := Api.cors; body := Some genericFailure |}
  /\ submissions (snd (Api.contact env oa (post b) w)) = submissions w
  /\ appended (events (snd (Api.contact env oa (post b) w)))
     = appended (events w)
  /\ (exists cause,
        complaints (events (snd (Api.contact env oa (post b) w)))
        = complaints (events w)
          ++ [[LStr (js "Contact form error:"); LErr cause]]
        /\ (sent (events (snd (Api.contact env oa (post b) w)))
            <> sent (events w) -> cause = e)).
Proof.
  intros Hv Ht Hs Hsa.
  destruct (valid_fields _ Hv) as (n & em & s & m & ->).
  destruct w as [tr sub evs], o as [ct ft hd td ao so], oa as [hda tao soa].
  simpl in Ht, Hs, Hsa. subst tr so soa.
  split; [|split].
  - unfold Server.contact. rewrite Hv. destruct ao; reflexivity.
  - exists n, em, s, m. split; [reflexivity|]. split.
    + unfold Server.contact. rewrite Hv. destruct ao; run;
        rewrite <- !app_assoc; cbn [app];
        match goal with
        | |- exists pre mid, _ ++ ?l = _ =>
            exists (firstn 10 l), (firstn 1 (skipn 11 l))
        end; reflexivity.
    + cbn [Server.appendOutcome]. intros ->.
      unfold Server.contact. rewrite Hv. reflexivity.
  - api_post. rewrite Hv.
    destruct (negb (not_ (EMAIL_USER env)) && negb (not_ (EMAIL_PASS env)));
      [|destruct tao as [ae|acct]]; run; tidy;
      (repeat split; try reflexivity;
       eexists; split; [reflexivity|]; intros H; congruence).
Qed.

(** The send-failure theorem on scenario 1 with a transport that refuses
    the connection. *)
Lemma send_failure_generic_500_witness :
  validation scenario1 = []
  /\ fst (Server.contact bareEnv (serverOracle None refused) scenario1
            (freshWorld (Some etherealTransport)))
     = Normal {| status := 500; headers := []; body := Some genericFailure |}.
Proof.
  split; [vm_compute; reflexivity|].
  apply (@send_failure_generic_500 bareEnv (serverOracle None refused)
           (apiOracle refused) scenario1 (freshWorld (Some etherealTransport))
           etherealTransport
           {| err_message := js "connect ECONNREFUSED 127.0.0.1:587" |});
    vm_compute; reflexivity.
Defined.

(** C3 fails on api/contact.js: on scenario 1 with a refusing transport
    the handler answers 500 and no log entry exists afterwards. *)
Lemma api_send_failure_leaves_no_log :
  validation scenario1 = []
  /\ fst (Api.contact bareEnv (apiOracle refused) (post scenario1)
            (freshWorld None))
     = Normal {| status := 500; headers := Api.cors; body := Some genericFailure |}
  /\ List.length (sent (events (snd (Api.contact bareEnv (apiOracle refused)
                                  (post scenario1) (freshWorld None))))) = 1%nat
  /\ appended (events (snd (Api.contact bareEnv (apiOracle refused)
                              (post scenario1) (freshWorld None)))) = []
  /\ submissions (snd (Api.contact bareEnv (apiOracle refused)
                         (post scenario1) (freshWorld None))) = [].
Proof. vm_compute. repeat split. Qed.

(** C6, as the code has it. The message handed to the transport has the
    email field as its reply-to address in both handlers; its subject is
    the subject field after the prefix of the handler: a rocket, a space
    and Portfolio, colon, space in server.js, and Portfolio, colon, space
    alone in api/contact.js. *)
Theorem mail_subject_and_reply_to env o oa b w t account :
  validation b = [] ->
  transporter w = Some t ->
  Api.testAccountOutcome oa = inr account ->
  exists n em s m,
    b = submission n em s m
    /\ sent (events (snd (Server.contact env o b w)))
       = sent (events w) ++ [Server.mailOptions env o n em s m]
    /\ replyTo (Server.mailOptions env o n em s m) = em
    /\ subject (Server.mailOptions env o n em s m) = js "🚀 Portfolio: " ++ s
    /\ sent (events (snd (Api.contact env oa (post b) w)))
       = sent (events w) ++ [Api.mailOptions env oa n em s m]
    /\ replyTo (Api.mailOptions env oa n em s m) = em
    /\ subject (Api.mailOptions env oa n em s m) = js "Portfolio: " ++ s.
Proof.
  intros Hv Ht Ha.
  destruct (valid_fields _ Hv) as (n & em & s & m & ->).
  exists n, em, s, m.
  destruct w as [tr sub evs], o as [ct ft hd td ao so], oa as [hda tao soa].
  simpl in Ht, Ha. subst tr tao.
  split; [reflexivity|]. split; [|split; [reflexivity|split; [reflexivity|split]]].
  - unfold Server.contact. rewrite Hv.
    destruct ao, so as [se|[[url|]]]; run; tidy; reflexivity.
  - api_post. rewrite Hv.
    destruct (negb (not_ (EMAIL_USER env)) && negb (not_ (EMAIL_PASS env))),
      soa as [se|info]; run; tidy; reflexivity.
  - split; reflexivity.
Qed.

Lemma mail_subject_and_reply_to_witness :
  validation scenario1 = []
  /\ exists n em s m,
       scenario1 = submission n em s m
       /\ sent (events (snd (Server.contact bareEnv (serverOracle None delivered)
                               scenario1 (freshWorld (Some etherealTransport)))))
          = sent (events (freshWorld (Some etherealTransport)))
            ++ [Server.mailOptions bareEnv (serverOracle None delivered) n em s m]
       /\ replyTo (Server.mailOptions bareEnv (serverOracle None delivered) n em s m)
          = em.
Proof.
  split; [vm_compute; reflexivity|].
  destruct (@mail_subject_and_reply_to bareEnv (serverOracle None delivered)
              (apiOracle delivered) scenario1
              (freshWorld (Some etherealTransport)) etherealTransport
              {| user := js "u@ethereal.email"; pass := js "p" |})
    as (n & em & s & m & H1 & H2 & H3 & _);
    [vm_compute; reflexivity | reflexivity | reflexivity |].
  exists n, em, s, m. auto.
Defined.

(** C6 fails on server.js: for scenario 1 the subject line of the message
    handed to the transport starts with a rocket and is not Portfolio,
    colon, space followed by the subject field. *)
Lemma server_subject_has_rocket :
  validation scenario1 = []
  /\ map subject
       (sent (events (snd (Server.contact bareEnv (serverOracle None delivered)
                             scenario1 (freshWorld (Some etherealTransport))))))
     = [js "🚀 Portfolio: Hi!"]
  /\ js "🚀 Portfolio: Hi!" <> js "Portfolio: " ++ js "Hi!".
Proof.
  split; [vm_compute; reflexivity|].
  split; [vm_compute; reflexivity|].
  vm_compute. discriminate.
Qed.

(** C8. When the append to the submissions file throws on a valid
    submission, the error goes to console.error and nowhere else: the
    file is as before, the answer and the messages handed to the
    transport are those of the same request with a working file, the
    message is handed to the transport when there is one, and the answer
    is the thanks or the fixed failure message. *)
Theorem append_failure_swallowed env o b w e :
  validation b = [] ->
  Server.appendOutcome o = Some e ->
  fst (Server.contact env o b w)
  = fst (Server.contact env (withAppend o None) b w)
  /\ sent (events (snd (Server.contact env o b w)))
     = sent (events (snd (Server.contact env (withAppend o None) b w)))
  /\ (forall t, transporter w = Some t ->
      exists n em s m,
        b = submission n em s m
        /\ sent (events (snd (Server.contact env o b w)))
           = sent (events w) ++ [Server.mailOptions env o n em s m])
  /\ submissions (snd (Server.contact env o b w)) = submissions w
  /\ complaints (events (snd (Server.contact env o b w)))
     = complaints (events w)
       ++ [LStr (js "❌ Error saving to file:"); LStr (err_message e)]
          :: match transporter w, Server.sendOutcome o with
             | Some _, inl se => [[LStr (js "❌ Contact form error:"); LErr se]]
             | _, _ => []
             end
  /\ fst (Server.contact env o b w)
     = Normal (match transporter w, Server.sendOutcome o with
               | Some _, inl _ =>
                   {| status := 500; headers := []; body := Some genericFailure |}
               | _, _ =>
                   {| status := 200; headers := []; body := Some thankYou |}
               end).
Proof.
  intros Hv Ha.
  destruct (valid_fields _ Hv) as (n & em & s & m & ->).
  destruct w as [tr sub evs], o as [ct ft hd td ao so].
  simpl in Ha. subst ao.
  unfold Server.contact. rewrite Hv.
  destruct tr as [t|], so as [se|[[url|]]]; run; tidy.
  all: split; [reflexivity|].
  all: split; [reflexivity|].
  all: split; [intros t' Ht'; try discriminate; injection Ht' as <-;
               exists n, em, s, m; split; reflexivity|].
  all: split; [reflexivity|].
  all: split; reflexivity.
Qed.

Lemma append_failure_swallowed_witness :
  validation scenario1 = []
  /\ Server.appendOutcome (serverOracle diskFull delivered) = diskFull
  /\ fst (Server.contact bareEnv (serverOracle diskFull delivered) scenario1
            (freshWorld (Some etherealTransport)))
     = fst (Server.contact bareEnv
              (withAppend (serverOracle diskFull delivered) None) scenario1
              (freshWorld (Some etherealTransport))).
Proof.
  split; [vm_compute; reflexivity|]. split; [reflexivity|].
  apply (@append_failure_swallowed bareEnv (serverOracle diskFull delivered)
           scenario1 (freshWorld (Some etherealTransport))
           {| err_message := js "ENOSPC: no space left on device, write" |});
    vm_compute; reflexivity.
Defined.

(* ================================================================== *)
(** ** The transport at start-up, the health endpoints *)






(** C10 fails as the claim words it: after a start-up with usable
    credentials whose verification fails and whose fallback fails too,
    the transporter variable is not null but holds the transport of the
    configured account.  A valid submission is then handed to that
    transport, and when the send fails the answer is 500 with the fixed
    failure message, while the block is in the file. *)
Lemma failed_setup_keeps_a_transport :
  usableCredentials gmailEnv = true
  /\ transporter (snd (Server.setupEmailTransporter gmailEnv nothingWorks
                         (freshWorld None)))
     = Some (configuredTransport gmailEnv)
  /\ validation scenario1 = []
  /\ fst (Server.contact gmailEnv (serverOracle None refused) scenario1
            (snd (Server.setupEmailTransporter gmailEnv nothingWorks
                    (freshWorld None))))
     = Normal {| status := 500; headers := []; body := Some genericFailure |}
  /\ handed
       (events
          (snd (Server.contact gmailEnv (serverOracle None refused) scenario1
                  (snd (Server.setupEmailTransporter gmailEnv nothingWorks
                          (freshWorld None))))))
     = [(configuredTransport gmailEnv,
         Server.mailOptions gmailEnv (serverOracle None refused)
           (js "Al") (js "a@b.co") (js "Hi!")
           (js "This message is long enough to pass the check."))]
  /\ submissions
       (snd (Server.contact gmailEnv (serverOracle None refused) scenario1
               (snd (Server.setupEmailTransporter gmailEnv nothingWorks
                       (freshWorld None)))))
     = Server.entry (js "Sunday 1 November 2026 at 10:15:00 am")
         (js "Al") (js "a@b.co") (js "Hi!")
         (js "This message is long enough to pass the check.").
Proof.
  repeat split; vm_compute; reflexivity.
Qed.

(** C9, as the code has it. Both health handlers answer 200 with status
    ok, a message and the timestamp, and change nothing.  The body of
    server.js has the boolean emailConfigured, true exactly when the
    transporter variable holds a transport; the body of api/health.js has
    no such field. *)
Theorem health_answers isoNow w :
  snd (Server.health isoNow w) = w
  /\ (exists r,
        fst (Server.health isoNow w) = Normal r
        /\ status r = 200
        /\ jsonField "status" (body r) = Some (JStr (js "ok"))
        /\ jsonField "message" (body r)
           = Some (JStr (js "Portfolio API is running"))
        /\ jsonField "timestamp" (body r) = Some (JStr isoNow)
        /\ exists configured,
             jsonField "emailConfigured" (body r) = Some (JBool configured)
             /\ (configured = true <-> transporter w <> None))
  /\ snd (Api.health isoNow w) = w
  /\ (exists r,
        fst (Api.health isoNow w) = Normal r
        /\ status r = 200
        /\ jsonField "status" (body r) = Some (JStr (js "ok"))
        /\ jsonField "message" (body r)
           = Some (JStr (js "Portfolio API is running"))
        /\ jsonField "timestamp" (body r) = Some (JStr isoNow)
        /\ jsonField "emailConfigured" (body r) = None).
Proof.
  destruct w as [tr sub evs].
  split; [reflexivity|]. split; [|split; [reflexivity|]].
  - eexists. split; [reflexivity|]. repeat (split; [reflexivity|]).
    exists (match tr with Some _ => true | None => false end).
    split; [reflexivity|]. cbn [transporter].
    destruct tr; split; congruence.
  - eexists. split; [reflexivity|]. repeat (split; [reflexivity|]).
    reflexivity.
Qed.

(** C9 fails on api/health.js: its body has no field emailConfigured,
    with or without a transport in the process. *)
Lemma api_health_lacks_emailConfigured :
  exists r,
    fst (Api.health (js "2026-11-01T04:45:00.000Z")
           (freshWorld (Some etherealTransport))) = Normal r
    /\ status r = 200
    /\ ~ exists configured,
           jsonField "emailConfigured" (body r) = Some (JBool configured).
Proof.
  eexists. split; [reflexivity|]. split; [reflexivity|].
  intros [c H]. vm_compute in H. discriminate.
Qed.

(* ================================================================== *)
(** ** Rendering *)








(** What [escapeHtml] does to one code unit. *)
Lemma escapeChar_cases c :
  (c = 38 /\ escapeChar c = js "&amp;")
  \/ (c = 60 /\ escapeChar c = js "&lt;")
  \/ (c = 62 /\ escapeChar c = js "&gt;")
  \/ (c = 34 /\ escapeChar c = js "&quot;")
  \/ (c = 39 /\ escapeChar c = js "&#039;")
  \/ (c <> 38 /\ c <> 60 /\ c <> 62 /\ c <> 34 /\ c <> 39 /\ escapeChar c = [c]).
Proof.
  unfold escapeChar.
  destruct (N.eqb_spec c 38); [auto|].
  destruct (N.eqb_spec c 60); [auto|].
  destruct (N.eqb_spec c 62); [auto 6|].
  destruct (N.eqb_spec c 34); [auto 6|].
  destruct (N.eqb_spec c 39); [auto 7|].
  do 5 right. auto 7.
Qed.









Ltac not_among :=
  let H := fresh in
  vm_compute; intros H;
  repeat (destruct H as [H|H]; [discriminate|]); exact H.


(** C7. Rendering reads the clock for one thing only, the timestamp it
    prints: each body is a fixed opening, the timestamp, and a rest that
    is a function of the four fields alone; the plain-text body of
    api/contact.js has no timestamp at all.  So two renderings of the
    same input are the same code units whenever the timestamps read are
    the same, and differ in the timestamp alone otherwise. *)
Theorem render_fixed_but_for_timestamp :
  (exists pre, forall n e s m, exists rest, forall date,
      Server.generateEmailTemplate date n e s m = pre ++ date ++ rest)
  /\ (exists pre, forall n e s m, exists rest, forall now,
      Server.generatePlainTextEmail now n e s m = pre ++ now ++ rest)
  /\ (exists pre, forall n e s m, exists rest, forall date,
      Api.generateEmailTemplate date n e s m = pre ++ date ++ rest)
  /\ (forall env o1 o2 n e s m,
        text (Api.mailOptions env o1 n e s m)
        = text (Api.mailOptions env o2 n e s m))
  /\ (forall env o1 o2 n e s m,
        Server.htmlDate o1 = Server.htmlDate o2 ->
        Server.textDate o1 = Server.textDate o2 ->
        html (Server.mailOptions env o1 n e s m)
        = html (Server.mailOptions env o2 n e s m)
        /\ text (Server.mailOptions env o1 n e s m)
           = text (Server.mailOptions env o2 n e s m))
  /\ (forall env o1 o2 n e s m,
        Api.htmlDate o1 = Api.htmlDate o2 ->
        html (Api.mailOptions env o1 n e s m)
        = html (Api.mailOptions env o2 n e s m)).
Proof.
  split; [|split; [|split; [|split; [|split]]]].
  - eexists. intros n e s m. eexists. intros date.
    unfold Server.generateEmailTemplate. cbn [List.concat]. reflexivity.
  - eexists. intros n e s m. eexists. intros now.
    unfold Server.generatePlainTextEmail. cbn [List.concat]. reflexivity.
  - eexists. intros n e s m. eexists. intros date.
    unfold Api.generateEmailTemplate. cbn [List.concat]. reflexivity.
  - reflexivity.
  - intros env o1 o2 n e s m H1 H2. cbn [html text Server.mailOptions].
    rewrite H1, H2. split; reflexivity.
  - intros env o1 o2 n e s m H. cbn [html Api.mailOptions].
    rewrite H. reflexivity.
Qed.

(** The rendering theorem on two calls that read the same timestamps. *)
Lemma render_fixed_but_for_timestamp_witness :
  Server.htmlDate (serverOracle None delivered)
  = Server.htmlDate (secondCall (serverOracle None delivered))
  /\ html (Server.mailOptions bareEnv (serverOracle None delivered)
             (js "Al") (js "a@b.co") (js "Hi!") (js "Hello"))
     = html (Server.mailOptions bareEnv
               (secondCall (serverOracle None delivered))
               (js "Al") (js "a@b.co") (js "Hi!") (js "Hello")).
Proof.
  assert (Hh : Server.htmlDate (serverOracle None delivered)
               = Server.htmlDate (secondCall (serverOracle None delivered)))
    by (vm_compute; reflexivity).
  assert (Ht : Server.textDate (serverOracle None delivered)
               = Server.textDate (secondCall (serverOracle None delivered)))
    by (vm_compute; reflexivity).
  split; [exact Hh|].
  destruct render_fixed_but_for_timestamp as (_ & _ & _ & _ & H & _).
  destruct (H bareEnv (serverOracle None delivered)
              (secondCall (serverOracle None delivered))
              (js "Al") (js "a@b.co") (js "Hi!") (js "Hello") Hh Ht)
    as [Hhtml _].
  exact Hhtml.
Defined.
(* ================================================================== *)
(** ** Every request is answered *)

Lemma strictNe_false a b : strictNe a b = false <-> a = b.
Proof.
  unfold strictNe. destruct (list_eq_dec N.eq_dec a b); split; congruence.
Qed.

Lemma strictEq_true a b : strictEq a b = true <-> a = b.
Proof. unfold strictEq. rewrite negb_true_iff. apply strictNe_false. Qed.

(** The answer of api/contact.js to a valid POST: the thanks when a
    transport could be built and the send worked, the failure message
    otherwise. *)
Lemma api_contact_accepted env o b w :
  validation b = [] ->
  fst (Api.contact env o (post b) w)
  = Normal (match hasCredentials env, Api.testAccountOutcome o,
                  Api.sendOutcome o with
            | true, _, inr _ | false, inr _, inr _ =>
                {| status := 200; headers := Api.cors; body := Some thankYou |}
            | _, _, _ =>
                {| status := 500; headers := Api.cors;
                   body := Some genericFailure |}
            end).
Proof.
  intros Hv. destruct (@valid_fields _ Hv) as (n & em & s & m & ->).
  destruct w as [tr sub evs], o as [hd tao so].
  api_post. rewrite Hv. unfold hasCredentials.
  destruct (negb (not_ (EMAIL_USER env)) && negb (not_ (EMAIL_PASS env))),
    tao as [ae|acct], so as [se|info]; reflexivity.
Qed.


(** A request other than a POST never reaches the body. *)
Lemma api_contact_not_post env o req w :
  Api.method req <> js "POST" ->
  Api.contact env o req w
  = (Normal (if strictEq (Api.method req) (js "OPTIONS")
             then {| status := 200; headers := Api.cors; body := None |}
             else {| status := 405; headers := Api.cors;
                     body := Some (JObj [("success", JBool false);
                                         ("message",
                                          JStr (js "Method not allowed"))]) |}),
     w).
Proof.
  intros Hp. unfold Api.contact.
  destruct (strictEq (Api.method req) (js "OPTIONS")); [reflexivity|].
  destruct (strictNe (Api.method req) (js "POST")) eqn:E; [reflexivity|].
  apply strictNe_false in E. contradiction.
Qed.

(** X2. api/contact.js looks at the body of a POST only.  An OPTIONS
    request is answered 200 without a body and any other method 405 with
    the message Method not allowed, whatever the body holds, and neither
    logs, builds a transport, sends or changes anything. *)
Theorem api_other_methods_do_nothing env o req w :
  Api.method req <> js "POST" ->
  snd (Api.contact env o req w) = w
  /\ (Api.method req = js "OPTIONS" ->
      fst (Api.contact env o req w)
      = Normal {| status := 200; headers := Api.cors; body := None |})
  /\ (Api.method req <> js "OPTIONS" ->
      fst (Api.contact env o req w)
      = Normal {| status := 405; headers := Api.cors;
                  body := Some (JObj [("success", JBool false);
                                      ("message",
                                       JStr (js "Method not allowed"))]) |}).
Proof.
  intros Hp. rewrite (@api_contact_not_post env o req w Hp).
  split; [reflexivity|]. split; intros H.
  - apply strictEq_true in H. rewrite H. reflexivity.
  - destruct (strictEq (Api.method req) (js "OPTIONS")) eqn:E; [|reflexivity].
    apply strictEq_true in E. contradiction.
Qed.

Lemma api_other_methods_do_nothing_witness :
  Api.method getRequest <> js "POST"
  /\ snd (Api.contact bareEnv (apiOracle delivered) getRequest (freshWorld None))
     = freshWorld None.
Proof.
  assert (H : Api.method getRequest <> js "POST")
    by (vm_compute; discriminate).
  split; [exact H|].
  apply (@api_other_methods_do_nothing bareEnv (apiOracle delivered)
           getRequest (freshWorld None) H).
Defined.

(** X3. A valid POST to api/contact.js whose send works is answered 200
    with the thanks.  The calls it makes are, in this order and no other:
    the request of a test account when the credentials are not both set,
    the building of one transport, and the handing of the one message to
    that very transport.  The transport is the one of the configured
    account when both credentials are set, the one of the fresh test
    account otherwise.  Nothing goes to console.error and the file and
    the transporter variable of server.js are not touched. *)
Theorem api_contact_delivers env o b w t info :
  validation b = [] ->
  requestTransport env o = Some t ->
  Api.sendOutcome o = inr info ->
  exists n em s m,
    b = submission n em s m
    /\ fst (Api.contact env o (post b) w)
       = Normal {| status := 200; headers := Api.cors; body := Some thankYou |}
    /\ events (snd (Api.contact env o (post b) w))
       = events w
         ++ (if hasCredentials env then [] else [CreateTestAccount])
         ++ [CreateTransport t; SendMail t (Api.mailOptions env o n em s m)]
    /\ built (events (snd (Api.contact env o (post b) w)))
       = built (events w) ++ [t]
    /\ handed (events (snd (Api.contact env o (post b) w)))
       = handed (events w) ++ [(t, Api.mailOptions env o n em s m)]
    /\ accountRequests (events (snd (Api.contact env o (post b) w)))
       = (accountRequests (events w)
          + if hasCredentials env then 0 else 1)%nat
    /\ complaints (events (snd (Api.contact env o (post b) w)))
       = complaints (events w)
    /\ submissions (snd (Api.contact env o (post b) w)) = submissions w
    /\ transporter (snd (Api.contact env o (post b) w)) = transporter w.
Proof.
  intros Hv Ht Hs.
  destruct (@valid_fields _ Hv) as (n & em & s & m & ->).
  exists n, em, s, m. split; [reflexivity|].
  destruct w as [tr sub evs], o as [hd tao so].
  unfold requestTransport, hasCredentials in *. cbn [Api.sendOutcome Api.testAccountOutcome] in *.
  subst so. api_post. rewrite Hv.
  destruct (negb (not_ (EMAIL_USER env)) && negb (not_ (EMAIL_PASS env))).
  - injection Ht as <-. run. unfold accountRequests, handed. tidy.
    rewrite ?filter_app, ?length_app. cbn [filter List.length].
    repeat split; try reflexivity; lia.
  - destruct tao as [ae|acct]; [discriminate|]. injection Ht as <-.
    run. unfold accountRequests, handed. tidy.
    rewrite ?filter_app, ?length_app. cbn [filter List.length].
    repeat split; try reflexivity; lia.
Qed.

Lemma api_contact_delivers_witness :
  validation scenario1 = []
  /\ fst (Api.contact bareEnv (apiOracle delivered) (post scenario1)
            (freshWorld None))
     = Normal {| status := 200; headers := Api.cors; body := Some thankYou |}.
Proof.
  split; [vm_compute; reflexivity|].
  destruct (@api_contact_delivers bareEnv (apiOracle delivered) scenario1
              (freshWorld None)
              (testTransport {| user := js "u@ethereal.email"; pass := js "p" |})
              {| previewUrl := None |})
    as (n & em & s & m & _ & H & _);
    [vm_compute; reflexivity | vm_compute; reflexivity | reflexivity | exact H].
Defined.

(** X4. Without both credentials api/contact.js needs a test account for
    every request: when the account cannot be made, a valid POST is
    answered 500 with the fixed failure message, no transport is built,
    nothing is sent, and the error of the account request goes to
    console.error. *)
Theorem api_contact_without_account env o b w e :
  validation b = [] ->
  hasCredentials env = false ->
  Api.testAccountOutcome o = inl e ->
  fst (Api.contact env o (post b) w)
  = Normal {| status := 500; headers := Api.cors; body := Some genericFailure |}
  /\ built (events (snd (Api.contact env o (post b) w))) = built (events w)
  /\ sent (events (snd (Api.contact env o (post b) w))) = sent (events w)
  /\ accountRequests (events (snd (Api.contact env o (post b) w)))
     = (accountRequests (events w) + 1)%nat
  /\ complaints (events (snd (Api.contact env o (post b) w)))
     = complaints (events w) ++ [[LStr (js "Contact form error:"); LErr e]]
  /\ submissions (snd (Api.contact env o (post b) w)) = submissions w
  /\ transporter (snd (Api.contact env o (post b) w)) = transporter w.
Proof.
  intros Hv Hc Ha.
  destruct (@valid_fields _ Hv) as (n & em & s & m & ->).
  destruct w as [tr sub evs], o as [hd tao so].
  unfold hasCredentials in Hc. cbn [Api.testAccountOutcome] in Ha. subst tao.
  api_post. rewrite Hv, Hc. run. unfold accountRequests. tidy.
  rewrite ?filter_app, ?length_app. cbn [filter List.length].
  repeat split; try reflexivity; lia.
Qed.

Lemma api_contact_without_account_witness :
  validation scenario1 = []
  /\ hasCredentials bareEnv = false
  /\ fst (Api.contact bareEnv
            {| Api.htmlDate := js "Sunday 1 November 2026";
               Api.testAccountOutcome := Server.testAccountOutcome noAccount;
               Api.sendOutcome := delivered |}
            (post scenario1) (freshWorld None))
     = Normal {| status := 500; headers := Api.cors;
                 body := Some genericFailure |}.
Proof.
  split; [vm_compute; reflexivity|]. split; [reflexivity|].
  apply (@api_contact_without_account bareEnv
           {| Api.htmlDate := js "Sunday 1 November 2026";
              Api.testAccountOutcome := Server.testAccountOutcome noAccount;
              Api.sendOutcome := delivered |}
           scenario1 (freshWorld None)
           {| err_message := js "getaddrinfo ENOTFOUND api.nodemailer.com" |});
    [vm_compute; reflexivity | reflexivity | reflexivity].
Defined.

(* ================================================================== *)
(** ** Start-up and what a request may change *)

(** X5. The start-up of server.js never throws and leaves the transport
    that the environment and the two outcomes select: with usable
    credentials the one of the configured account, replaced by the one
    of a test account only when the verification fails and the account
    can be made; without usable credentials the one of a test account,
    or the transporter as it was when the account cannot be made.  A test
    account is asked for in every case but the verified one, and the
    health endpoint of a freshly started process reports a transport
    exactly when the credentials are usable or the account was made. *)
Theorem setup_transport_selection env so w isoNow :
  fst (Server.setupEmailTransporter env so w) = Normal tt
  /\ submissions (snd (Server.setupEmailTransporter env so w)) = submissions w
  /\ transporter (snd (Server.setupEmailTransporter env so w))
     = match usableCredentials env, Server.verifyOutcome so,
             Server.testAccountOutcome so with
       | true, None, _ => Some (configuredTransport env)
       | true, Some _, inr account => Some (testTransport account)
       | true, Some _, inl _ => Some (configuredTransport env)
       | false, _, inr account => Some (testTransport account)
       | false, _, inl _ => transporter w
       end
  /\ accountRequests (events (snd (Server.setupEmailTransporter env so w)))
     = (accountRequests (events w)
        + match usableCredentials env, Server.verifyOutcome so with
          | true, None => 0
          | _, _ => 1
          end)%nat
  /\ jsonField "emailConfigured"
       (match fst (Server.health isoNow
                     (snd (Server.setupEmailTransporter env so
                             (freshWorld None)))) with
        | Normal r => body r
        | Throw _ => None
        end)
     = Some (JBool (usableCredentials env
                    || match Server.testAccountOutcome so with
                       | inr _ => true
                       | inl _ => false
                       end)).
Proof.
  destruct w as [tr sub evs], so as [vo tao].
  unfold Server.setupEmailTransporter. fold (usableCredentials env).
  unfold freshWorld.
  destruct (usableCredentials env), vo as [ve|], tao as [ae|acct]; run;
    unfold accountRequests;
    rewrite ?filter_app, ?length_app; cbn [filter List.length];
    (repeat split; try reflexivity; lia).
Qed.

(** X6. A request to a contact handler changes the world by adding to
    it, and never the transporter variable.  server.js leaves the
    submissions file as it was or with one block after the old content;
    a block is added only for a valid submission whose append worked;
    the calls made before are still there, followed by the new ones.
    api/contact.js never changes the file and never calls the append. *)
Theorem contact_only_appends env o oa b req w :
  transporter (snd (Server.contact env o b w)) = transporter w
  /\ (exists block,
        submissions (snd (Server.contact env o b w)) = submissions w ++ block
        /\ (block <> [] ->
            validation b = [] /\ Server.appendOutcome o = None))
  /\ (exists new, events (snd (Server.contact env o b w)) = events w ++ new)
  /\ transporter (snd (Api.contact env oa req w)) = transporter w
  /\ submissions (snd (Api.contact env oa req w)) = submissions w
  /\ (exists new, events (snd (Api.contact env oa req w)) = events w ++ new)
  /\ appended (events (snd (Api.contact env oa req w))) = appended (events w).
Proof.
  assert (Hs : transporter (snd (Server.contact env o b w)) = transporter w
               /\ (exists block,
                     submissions (snd (Server.contact env o b w))
                     = submissions w ++ block
                     /\ (block <> [] ->
                         validation b = [] /\ Server.appendOutcome o = None))
               /\ (exists new,
                     events (snd (Server.contact env o b w)) = events w ++ new)).
  { destruct (validation b) as [|e l] eqn:Hv.
    - destruct (@valid_fields _ Hv) as (n & em & s & m & ->).
      destruct w as [tr sub evs], o as [ct ft hd td ao so].
      unfold Server.contact. rewrite Hv.
      destruct tr as [t|], ao as [ae|], so as [se|[[url|]]]; run;
        rewrite <- ?app_assoc;
        (split; [reflexivity|]);
        (split; [|eexists; reflexivity]);
        first [ exists []; split; [rewrite app_nil_r; reflexivity|];
                intros F; congruence
              | eexists; split; [reflexivity|]; intros _; split; reflexivity ].
    - assert (Hne : validation b <> []) by congruence.
      rewrite (@server_contact_rejected env o b w Hne). cbn [snd].
      split; [reflexivity|]. split.
      + exists []. split; [rewrite app_nil_r; reflexivity | congruence].
      + exists []. rewrite app_nil_r. reflexivity. }
  destruct Hs as (H1 & H2 & H3).
  split; [exact H1|]. split; [exact H2|]. split; [exact H3|].
  assert (Hsame : forall x : World,
             x = w ->
             transporter x = transporter w /\ submissions x = submissions w
             /\ (exists new, events x = events w ++ new)
             /\ appended (events x) = appended (events w)).
  { intros x ->. repeat split; try reflexivity.
    exists []. rewrite app_nil_r. reflexivity. }
  destruct (list_eq_dec N.eq_dec (Api.method req) (js "POST")) as [Hp|Hp].
  - destruct req as [meth rb]. cbn [Api.method] in Hp. subst meth.
    change {| Api.method := js "POST"; Api.reqBody := rb |} with (post rb).
    destruct (validation rb) as [|e l] eqn:Hv.
    + destruct (@valid_fields _ Hv) as (n & em & s & m & ->).
      destruct w as [tr sub evs], oa as [hd tao so].
      api_post. rewrite Hv.
      destruct (negb (not_ (EMAIL_USER env)) && negb (not_ (EMAIL_PASS env)));
        [|destruct tao as [ae|acct]]; destruct so as [se|info]; run; tidy;
        rewrite <- ?app_assoc;
        (repeat split; try reflexivity; eexists; reflexivity).
    + assert (Hne : validation rb <> []) by congruence.
      rewrite (@api_contact_rejected env oa rb w Hne). cbn [snd].
      apply Hsame. reflexivity.
  - rewrite (@api_contact_not_post env oa req w Hp). cbn [snd].
    apply Hsame. reflexivity.
Qed.

(** X7. The recipient and the sender of the message.  The recipient is
    EMAIL_TO when that is set and not empty; else EMAIL_USER when that
    is set and not empty; else, in api/contact.js, the fixed address,
    while server.js then passes EMAIL_USER on as it is, undefined or
    empty.  So api/contact.js always has a recipient, and server.js has
    none exactly when EMAIL_TO and EMAIL_USER are both unset or empty.
    The sender is the same in both when EMAIL_USER is set and not empty;
    when it is unset server.js writes undefined between the angle
    brackets and api/contact.js the fixed no-reply address. *)
Theorem recipient_of_the_message env o oa n em s m :
  not_ (to (Api.mailOptions env oa n em s m)) = false
  /\ (not_ (to (Server.mailOptions env o n em s m)) = true
      <-> not_ (EMAIL_TO env) = true /\ not_ (EMAIL_USER env) = true)
  /\ (not_ (EMAIL_TO env) = false ->
      to (Server.mailOptions env o n em s m) = EMAIL_TO env
      /\ to (Api.mailOptions env oa n em s m) = EMAIL_TO env)
  /\ (not_ (EMAIL_TO env) = true -> not_ (EMAIL_USER env) = false ->
      to (Server.mailOptions env o n em s m) = EMAIL_USER env
      /\ to (Api.mailOptions env oa n em s m) = EMAIL_USER env)
  /\ (not_ (EMAIL_TO env) = true -> not_ (EMAIL_USER env) = true ->
      to (Server.mailOptions env o n em s m) = EMAIL_USER env
      /\ to (Api.mailOptions env oa n em s m)
         = Some (js "ajayjaiswar6340@gmail.com"))
  /\ (forall u, EMAIL_USER env = Some u -> u <> [] ->
      from (Server.mailOptions env o n em s m)
      = Q [EmptyString; "Portfolio Contact"; " <"] ++ u ++ js ">"
      /\ from (Api.mailOptions env oa n em s m)
         = Q [EmptyString; "Portfolio Contact"; " <"] ++ u ++ js ">")
  /\ (EMAIL_USER env = None ->
      from (Server.mailOptions env o n em s m)
      = Q [EmptyString; "Portfolio Contact"; " <undefined>"]
      /\ from (Api.mailOptions env oa n em s m)
         = Q [EmptyString; "Portfolio Contact"; " <noreply@portfolio.com>"]).
Proof.
  cbn [to from Api.mailOptions Server.mailOptions]. unfold or_.
  split; [|split; [|split; [|split; [|split; [|split]]]]].
  - destruct (EMAIL_TO env) as [[|c t]|], (EMAIL_USER env) as [[|c' t']|];
      reflexivity.
  - destruct (EMAIL_TO env) as [[|c t]|], (EMAIL_USER env) as [[|c' t']|];
      cbn; split; try tauto; try (intros [? ?]; congruence); congruence.
  - intros H. rewrite H. cbn. rewrite H. split; reflexivity.
  - intros H H'. rewrite H. cbn [negb]. rewrite H'. split; reflexivity.
  - intros H H'. rewrite H. cbn [negb]. rewrite H'. split; reflexivity.
  - intros u -> Hu. destruct u as [|c u]; [contradiction Hu; reflexivity|].
    split; reflexivity.
  - intros ->. split; vm_compute; reflexivity.
Qed.

(* ================================================================== *)
(** ** White space and the four checks *)

Lemma trimStart_blank s : blank s -> trimStart s = [].
Proof.
  induction 1 as [|c s Hc _ IH]; [reflexivity|]. simpl. rewrite Hc. exact IH.
Qed.

Lemma trimStart_app_blank a s : blank a -> trimStart (a ++ s) = trimStart s.
Proof.
  induction 1 as [|c a Hc _ IH]; [reflexivity|]. simpl. rewrite Hc. exact IH.
Qed.

Lemma trimStart_app s z :
  trimStart s <> [] -> trimStart (s ++ z) = trimStart s ++ z.
Proof.
  induction s as [|c s IH]; intros H; [contradiction H; reflexivity|].
  simpl in *. destruct (isWhiteSpace c); [apply IH; exact H | reflexivity].
Qed.

Lemma trimEnd_app_blank s z : blank z -> trimEnd (s ++ z) = trimEnd s.
Proof.
  intros Hz. unfold trimEnd. rewrite rev_app_distr.
  rewrite trimStart_app_blank; [reflexivity|]. apply Forall_rev. exact Hz.
Qed.

Lemma trim_blank s : blank s -> trim s = [].
Proof. intros H. unfold trim. rewrite trimStart_blank; auto. Qed.

(** White space around a string does not change what [trim] leaves. *)
Lemma trim_padded a s z : blank a -> blank z -> trim (a ++ s ++ z) = trim s.
Proof.
  intros Ha Hz. unfold trim. rewrite trimStart_app_blank by exact Ha.
  destruct (trimStart s) as [|c t] eqn:E.
  - assert (Hb : trimStart (s ++ z) = []).
    { destruct (trimStart_spec s) as (p & Hs & Hp & _). rewrite E in Hs.
      rewrite app_nil_r in Hs. subst p.
      apply trimStart_blank. apply Forall_app. split; assumption. }
    rewrite Hb. reflexivity.
  - rewrite trimStart_app by (rewrite E; discriminate).
    rewrite E. apply trimEnd_app_blank. exact Hz.
Qed.

Lemma plain_not_blank c : plainChar c -> isWhiteSpace c = false.
Proof. intros [H _]. exact H. Qed.

(** A check that fails puts its message in the list. *)
Lemma failing_checks_listed b :
  (nameFails b = true -> In nameError (validation b))
  /\ (emailFails b = true -> In emailError (validation b))
  /\ (subjectFails b = true -> In subjectError (validation b))
  /\ (messageFails b = true -> In messageError (validation b)).
Proof.
  rewrite validation_eq.
  destruct (kept_items (nameFails b) (emailFails b) (subjectFails b)
              (messageFails b) errors_distinct) as (H1 & H2 & H3 & H4 & _).
  repeat split; intros H; [apply H1 | apply H2 | apply H3 | apply H4]; exact H.
Qed.

(** X8. The name, the subject and the message are judged after trimming:
    white space before and after them changes no check.  The email is
    judged as it is: with white space before or after it, it is refused
    whatever it holds. *)
Theorem padding_ignored_except_for_email a z n e s m :
  blank a -> blank z ->
  nameFails (submission (a ++ n ++ z) e s m) = nameFails (submission n e s m)
  /\ subjectFails (submission n e (a ++ s ++ z) m)
     = subjectFails (submission n e s m)
  /\ messageFails (submission n e s (a ++ m ++ z))
     = messageFails (submission n e s m)
  /\ validation (submission (a ++ n ++ z) e (a ++ s ++ z) (a ++ m ++ z))
     = validation (submission n e s m)
  /\ (a ++ z <> [] ->
      In emailError (validation (submission n (a ++ e ++ z) s m))).
Proof.
  intros Ha Hz.
  assert (Hlen : forall k x,
             (0 < k)%nat ->
             not_ (Some (a ++ x ++ z))
             || (List.length (trim (a ++ x ++ z)) <? k)%nat
             = not_ (Some x) || (List.length (trim x) <? k)%nat).
  { intros k x Hk. rewrite (trim_padded x Ha Hz).
    destruct (List.length (trim x) <? k)%nat eqn:E.
    - rewrite !orb_true_r. reflexivity.
    - rewrite !orb_false_r. destruct x as [|c x'].
      + simpl in E. apply Nat.ltb_ge in E. lia.
      + destruct (a ++ (c :: x') ++ z) eqn:F; [|reflexivity].
        apply app_eq_nil in F. destruct F as [_ F]. discriminate. }
  assert (H1 : nameFails (submission (a ++ n ++ z) e s m)
               = nameFails (submission n e s m)) by (apply Hlen; lia).
  assert (H2 : subjectFails (submission n e (a ++ s ++ z) m)
               = subjectFails (submission n e s m)) by (apply Hlen; lia).
  assert (H3 : messageFails (submission n e s (a ++ m ++ z))
               = messageFails (submission n e s m)) by (apply Hlen; lia).
  split; [exact H1|]. split; [exact H2|]. split; [exact H3|]. split.
  - rewrite !validation_eq.
    change (nameFails (submission (a ++ n ++ z) e (a ++ s ++ z) (a ++ m ++ z)))
      with (nameFails (submission (a ++ n ++ z) e s m)).
    change (subjectFails (submission (a ++ n ++ z) e (a ++ s ++ z) (a ++ m ++ z)))
      with (subjectFails (submission n e (a ++ s ++ z) m)).
    change (messageFails (submission (a ++ n ++ z) e (a ++ s ++ z) (a ++ m ++ z)))
      with (messageFails (submission n e s (a ++ m ++ z))).
    change (emailFails (submission (a ++ n ++ z) e (a ++ s ++ z) (a ++ m ++ z)))
      with (emailFails (submission n e s m)).
    rewrite H1, H2, H3. reflexivity.
  - intros Hne.
    apply (proj1 (proj2 (failing_checks_listed
                           (submission n (a ++ e ++ z) s m)))).
    unfold emailFails. cbn [email submission].
    destruct (isValidEmail (a ++ e ++ z)) eqn:E;
      [|rewrite orb_true_r; reflexivity].
    exfalso. apply isValidEmail_shape in E.
    destruct E as (l & d & t & Heq & Hl & Hd & Ht & Al & Ad & At).
    assert (Hall : Forall (fun c => isWhiteSpace c = false) (a ++ e ++ z)).
    { rewrite Heq. repeat (apply Forall_app; split);
        try (eapply Forall_impl; [apply plain_not_blank|]; assumption);
        repeat constructor. }
    apply Forall_app in Hall. destruct Hall as [Fa Fez].
    apply Forall_app in Fez. destruct Fez as [_ Fz].
    destruct a as [|c a'].
    + destruct z as [|c z']; [contradiction Hne; reflexivity|].
      inversion Hz; subst. inversion Fz; subst. congruence.
    + inversion Ha; subst. inversion Fa; subst. congruence.
Qed.

Lemma padding_ignored_except_for_email_witness :
  blank (js " ") /\ blank (js "
")
  /\ In emailError
       (validation (submission (js "Al") (js " " ++ js "a@b.co" ++ js "
") (js "Hi!")
                      (js "This message is long enough to pass the check."))).
Proof.
  assert (Ha : blank (js " ")) by (repeat constructor).
  assert (Hz : blank (js "
")) by (repeat constructor).
  split; [exact Ha|]. split; [exact Hz|].
  apply (@padding_ignored_except_for_email (js " ") (js "
") (js "Al") (js "a@b.co") (js "Hi!")
           (js "This message is long enough to pass the check.") Ha Hz).
  vm_compute. discriminate.
Defined.

(** X9. A field that is missing, empty or made of white space only fails
    its check, and so does an email with a white space code unit
    anywhere; a body without any of the four fields gets the four
    messages. *)
Theorem blank_or_missing_fields_fail b :
  (match name b with Some s => blank s | None => True end ->
   In nameError (validation b))
  /\ (match subject_ b with Some s => blank s | None => True end ->
      In subjectError (validation b))
  /\ (match message b with Some s => blank s | None => True end ->
      In messageError (validation b))
  /\ (match email b with
      | Some s => s = [] \/ Exists (fun c => isWhiteSpace c = true) s
      | None => True
      end ->
      In emailError (validation b))
  /\ validation {| name := None; email := None; subject_ := None;
                   message := None |}
     = [nameError; emailError; subjectError; messageError].
Proof.
  destruct (failing_checks_listed b) as (H1 & H2 & H3 & H4).
  assert (Hb : forall x k, (0 < k)%nat ->
             match x with Some s => blank s | None => True end ->
             not_ x
             || match x with
                | Some s => (List.length (trim s) <? k)%nat
                | None => false
                end = true).
  { intros [s|] k Hk H; [|reflexivity].
    rewrite (trim_blank H). apply orb_true_iff. right.
    apply Nat.ltb_lt. exact Hk. }
  split; [|split; [|split; [|split]]].
  - intros H. apply H1. apply Hb; [lia | exact H].
  - intros H. apply H3. apply Hb; [lia | exact H].
  - intros H. apply H4. apply Hb; [lia | exact H].
  - intros H. apply H2. unfold emailFails.
    destruct (email b) as [s|]; [|reflexivity].
    destruct H as [->|H]; [reflexivity|].
    destruct (isValidEmail s) eqn:E; [|rewrite orb_true_r; reflexivity].
    exfalso. apply isValidEmail_shape in E.
    destruct E as (l & d & t & Heq & _ & _ & _ & Al & Ad & At).
    assert (Hall : Forall (fun c => isWhiteSpace c = false) s).
    { rewrite Heq. repeat (apply Forall_app; split);
        try (eapply Forall_impl; [apply plain_not_blank|]; assumption);
        repeat constructor. }
    apply Exists_exists in H. destruct H as (c & Hin & Hc).
    rewrite Forall_forall in Hall. specialize (Hall c Hin). congruence.
  - vm_compute. reflexivity.
Qed.

(** X10. What an accepted email is sure to have: exactly one at sign,
    not in first place, no white space, a dot after the at sign, and at
    least five code units. *)
Theorem accepted_email_facts e :
  isValidEmail e = true ->
  count_occ N.eq_dec e 64 = 1%nat
  /\ Forall (fun c => isWhiteSpace c = false) e
  /\ (5 <= List.length e)%nat
  /\ (exists c rest, e = c :: rest /\ c <> 64)
  /\ (exists before after, e = before ++ 64 :: after /\ In 46 after).
Proof.
  intros H. apply isValidEmail_shape in H.
  destruct H as (l & d & t & -> & Hl & Hd & Ht & Al & Ad & At).
  assert (Hno : forall x, Forall plainChar x -> count_occ N.eq_dec x 64 = 0%nat).
  { intros x Hx. apply count_occ_not_In. intros Hin.
    rewrite Forall_forall in Hx. destruct (Hx 64 Hin) as [_ F]. congruence. }
  split; [|split; [|split; [|split]]].
  - rewrite !count_occ_app, (Hno l Al), (Hno d Ad), (Hno t At). reflexivity.
  - repeat (apply Forall_app; split);
      try (eapply Forall_impl; [apply plain_not_blank|]; assumption);
      repeat constructor.
  - rewrite !length_app. cbn [List.length].
    destruct l; [congruence|]. destruct d; [congruence|].
    destruct t; [congruence|]. cbn [List.length]. lia.
  - destruct l as [|c l']; [congruence|]. exists c, (l' ++ [64] ++ d ++ [46] ++ t).
    split; [reflexivity|]. inversion Al as [|? ? [_ Hc] _]; subst. exact Hc.
  - exists l, (d ++ [46] ++ t). split; [reflexivity|].
    apply in_or_app. right. left. reflexivity.
Qed.

Lemma accepted_email_facts_witness :
  isValidEmail (js "a.b@c.d.e") = true
  /\ count_occ N.eq_dec (js "a.b@c.d.e") 64 = 1%nat.
Proof.
  assert (H : isValidEmail (js "a.b@c.d.e") = true) by (vm_compute; reflexivity).
  split; [exact H|]. apply (@accepted_email_facts (js "a.b@c.d.e") H).
Defined.

(* ================================================================== *)
(** ** Escaping and splitting *)

Lemma special_dec c : {special c} + {~ special c}.
Proof.
  unfold special.
  destruct (N.eq_dec c 38); [left; auto|].
  destruct (N.eq_dec c 60); [left; auto|].
  destruct (N.eq_dec c 62); [left; auto|].
  destruct (N.eq_dec c 34); [left; auto 6|].
  destruct (N.eq_dec c 39); [left; auto 6|].
  right. intros [H|[H|[H|[H|H]]]]; contradiction.
Qed.

Lemma escapeChar_special c :
  special c ->
  (4 <= List.length (escapeChar c) <= 6)%nat
  /\ exists rest, escapeChar c = 38 :: rest.
Proof.
  intros [->|[->|[->|[->| ->]]]]; vm_compute; (split; [lia | eexists; reflexivity]).
Qed.

Lemma escapeChar_plain c : ~ special c -> escapeChar c = [c].
Proof.
  intros H. unfold special in H.
  destruct (escapeChar_cases c)
    as [[F _]|[[F _]|[[F _]|[[F _]|[[F _]|(_ & _ & _ & _ & _ & E)]]]]];
    try (exfalso; apply H; auto 6; fail).
  exact E.
Qed.

(** The replacements of two code units do not start alike unless the
    code units are the same. *)
Lemma escapeChar_prefix_free c d x y :
  escapeChar c ++ x = escapeChar d ++ y -> c = d /\ x = y.
Proof.
  intros H.
  destruct (escapeChar_cases c)
    as [[-> Ec]|[[-> Ec]|[[-> Ec]|[[-> Ec]|[[-> Ec]|(c1 & c2 & c3 & c4 & c5 & Ec)]]]]];
    destruct (escapeChar_cases d)
      as [[-> Ed]|[[-> Ed]|[[-> Ed]|[[-> Ed]|[[-> Ed]|(d1 & d2 & d3 & d4 & d5 & Ed)]]]]];
    rewrite ?Ec, ?Ed in H; vm_compute in H;
    try discriminate;
    try (injection H as H; split; [reflexivity | exact H]);
    try (injection H as H _; congruence).
  injection H as -> ->. split; reflexivity.
Qed.

Lemma escapeHtml_cons c s : escapeHtml (c :: s) = escapeChar c ++ escapeHtml s.
Proof. reflexivity. Qed.

Lemma escapeChar_not_nil c : escapeChar c <> [].
Proof.
  destruct (special_dec c) as [H|H].
  - destruct (escapeChar_special H) as (_ & r & ->). discriminate.
  - rewrite (escapeChar_plain H). discriminate.
Qed.

Lemma escapeHtml_length s :
  (List.length s <= List.length (escapeHtml s) <= 6 * List.length s)%nat.
Proof.
  induction s as [|c s IH]; [simpl; lia|].
  rewrite escapeHtml_cons, length_app. cbn [List.length].
  destruct (special_dec c) as [H|H].
  - destruct (escapeChar_special H) as (Hl & _). lia.
  - rewrite (escapeChar_plain H). cbn [List.length]. lia.
Qed.

(** X11. [escapeHtml] loses nothing and marks every change: different
    strings have different escaped forms; the escaped form has none of
    less-than, greater-than, double quote and single quote; it is never
    shorter than the string and at most six times as long; and it is the
    string itself exactly when the string has none of the five code
    units that are replaced. *)
Theorem escapeHtml_faithful s :
  (forall s', escapeHtml s = escapeHtml s' -> s = s')
  /\ (forall c, In c (escapeHtml s) -> c <> 60 /\ c <> 62 /\ c <> 34 /\ c <> 39)
  /\ (List.length s <= List.length (escapeHtml s) <= 6 * List.length s)%nat
  /\ (escapeHtml s = s <-> Forall (fun c => ~ special c) s).
Proof.
  split; [|split; [|split]].
  - induction s as [|c s IH]; intros [|d s'] H.
    + reflexivity.
    + rewrite escapeHtml_cons in H. symmetry in H.
      apply app_eq_nil in H. destruct H as [H _].
      exfalso. exact (@escapeChar_not_nil _ H).
    + rewrite escapeHtml_cons in H.
      apply app_eq_nil in H. destruct H as [H _].
      exfalso. exact (@escapeChar_not_nil _ H).
    + rewrite !escapeHtml_cons in H.
      apply escapeChar_prefix_free in H. destruct H as [-> H].
      f_equal. apply IH. exact H.
  - intros c H.
    unfold escapeHtml in H. rewrite in_flat_map in H.
    destruct H as (x & _ & Hc).
    destruct (escapeChar_cases x)
      as [[_ E]|[[_ E]|[[_ E]|[[_ E]|[[_ E]|(H1 & H2 & H3 & H4 & H5 & E)]]]]];
      rewrite E in Hc.
    1-5: vm_compute in Hc;
         repeat (destruct Hc as [<-|Hc]; [repeat split; discriminate|]);
         contradiction.
    destruct Hc as [<-|[]]. auto.
  - apply escapeHtml_length.
  - split.
    + induction s as [|c s IH]; intros H; [constructor|].
      rewrite escapeHtml_cons in H.
      destruct (special_dec c) as [Hc|Hc].
      * exfalso. destruct (escapeChar_special Hc) as (Hl & _).
        pose proof (escapeHtml_length s) as Hs.
        apply (f_equal (@List.length N)) in H.
        rewrite length_app in H. cbn [List.length] in H. lia.
      * rewrite (escapeChar_plain Hc) in H. injection H as H.
        constructor; [exact Hc | apply IH; exact H].
    + induction 1 as [|c s Hc _ IH]; [reflexivity|].
      rewrite escapeHtml_cons, (escapeChar_plain Hc), IH. reflexivity.
Qed.

Lemma split_not_nil sep s : split sep s <> [].
Proof.
  induction s as [|c s IH]; simpl; [discriminate|].
  destruct (c =? sep); [discriminate|].
  destruct (split sep s); discriminate.
Qed.

(** X12. [split] cuts at every separator and nowhere else: the pieces
    joined by the separator give the string back, no piece holds the
    separator, and there is one piece more than there are separators.
    So the first name of the reply button, the first piece of the name
    cut at spaces, is the name up to its first space; it is empty when
    the name starts with a space. *)
Theorem split_pieces sep s :
  join [sep] (split sep s) = s
  /\ Forall (fun piece => ~ In sep piece) (split sep s)
  /\ List.length (split sep s) = S (count_occ N.eq_dec s sep)
  /\ (exists rest,
        s = nth 0 (split sep s) [] ++ rest
        /\ (rest = [] \/ exists r, rest = sep :: r))
  /\ (forall r, nth 0 (split sep (sep :: r)) [] = []).
Proof.
  split; [|split; [|split; [|split]]].
  - induction s as [|c s IH]; [reflexivity|].
    simpl. destruct (N.eqb_spec c sep) as [->|Hc].
    + destruct (split sep s) as [|h r] eqn:E;
        [exfalso; exact (split_not_nil _ _ E)|].
      change (join [sep] ([] :: h :: r)) with ([] ++ [sep] ++ join [sep] (h :: r)).
      rewrite IH. reflexivity.
    + destruct (split sep s) as [|h r] eqn:E;
        [exfalso; exact (split_not_nil _ _ E)|].
      rewrite <- IH. destruct r; reflexivity.
  - induction s as [|c s IH]; [repeat constructor; auto|].
    simpl. destruct (N.eqb_spec c sep) as [->|Hc].
    + constructor; [auto | exact IH].
    + destruct (split sep s) as [|h r] eqn:E;
        [exfalso; exact (split_not_nil _ _ E)|].
      inversion IH; subst. constructor; [|assumption].
      intros [F|F]; [congruence | contradiction].
  - induction s as [|c s IH]; [reflexivity|].
    simpl. destruct (N.eqb_spec c sep) as [->|Hc].
    + destruct (N.eq_dec sep sep); [|congruence]. simpl. rewrite IH. reflexivity.
    + destruct (N.eq_dec c sep); [congruence|].
      destruct (split sep s) as [|h r] eqn:E;
        [exfalso; exact (split_not_nil _ _ E)|].
      simpl in *. exact IH.
  - induction s as [|c s (rest & IH & Hr)].
    + exists []. split; [reflexivity | left; reflexivity].
    + simpl. destruct (N.eqb_spec c sep) as [->|Hc].
      * exists (sep :: s). split; [reflexivity | right; eexists; reflexivity].
      * destruct (split sep s) as [|h r] eqn:E;
          [exfalso; exact (split_not_nil _ _ E)|].
        exists rest. simpl in *. split; [rewrite IH at 1; reflexivity | exact Hr].
  - intros r. simpl. rewrite N.eqb_refl. reflexivity.
Qed.

(* ================================================================== *)
(** ** The page script: class lists and look-ups *)

Module DomFacts.
Import Dom.

Lemma contains_app c l1 l2 :
  contains c (l1 ++ l2) = contains c l1 || contains c l2.
Proof. unfold contains. apply existsb_app. Qed.

Lemma contains_add_same c l : contains c (add c l) = true.
Proof.
  unfold add. destruct (contains c l) eqn:E; [exact E|].
  rewrite contains_app, E. simpl. rewrite String.eqb_refl. reflexivity.
Qed.

Lemma contains_add_other c d l : c <> d -> contains d (add c l) = contains d l.
Proof.
  intros H. unfold add. destruct (contains c l); [reflexivity|].
  rewrite contains_app. simpl.
  destruct (String.eqb_spec d c); [congruence|].
  rewrite !orb_false_r. reflexivity.
Qed.

Lemma contains_remove_same c l : contains c (remove c l) = false.
Proof.
  unfold contains, remove. induction l as [|x l IH]; [reflexivity|].
  simpl. destruct (String.eqb_spec c x); simpl; [exact IH|].
  destruct (String.eqb_spec c x); [contradiction | exact IH].
Qed.

Lemma contains_remove_other c d l :
  c <> d -> contains d (remove c l) = contains d l.
Proof.
  intros H. unfold contains, remove. induction l as [|x l IH]; [reflexivity|].
  simpl. destruct (String.eqb_spec c x) as [<-|Hx]; simpl.
  - destruct (String.eqb_spec d c); [congruence | exact IH].
  - rewrite IH. reflexivity.
Qed.

Lemma contains_toggle c l : contains c (toggle c l) = negb (contains c l).
Proof.
  unfold toggle. destruct (contains c l) eqn:E.
  - apply contains_remove_same.
  - apply contains_add_same.
Qed.

Lemma query_update g i f form :
  querySelector g (update i f form)
  = if String.eqb i g then option_map f (querySelector g form)
    else querySelector g form.
Proof.
  induction form as [|[j el] rest IH]; simpl.
  - destruct (String.eqb i g); reflexivity.
  - destruct (String.eqb_spec j i) as [->|Hji]; simpl.
    + destruct (String.eqb_spec i g) as [->|Hig]; reflexivity.
    + destruct (String.eqb_spec j g) as [->|Hjg].
      * destruct (String.eqb_spec i g); [congruence | reflexivity].
      * exact IH.
Qed.

Lemma append_longer (a b : string) : b <> EmptyString -> (a ++ b)%string <> a.
Proof.
  intros Hb. induction a as [|c a IH]; simpl.
  - exact Hb.
  - intros H. injection H as H. exact (IH H).
Qed.

End DomFacts.

(* ================================================================== *)
(** ** The page script: validation in the browser *)

Import Dom.

(** When the handlers accept four strings, for use below. *)
Lemma submission_accepted n e s m :
  validation (submission n e s m) = [] <->
  (2 <= List.length (trim n))%nat /\ isValidEmail e = true
  /\ (3 <= List.length (trim s))%nat /\ (20 <= List.length (trim m))%nat.
Proof.
  rewrite validation_nil.
  destruct (fails_submission n e s m) as (-> & -> & -> & ->).
  rewrite !length_check by lia. rewrite email_check, isValidEmail_shape.
  reflexivity.
Qed.

(** [validateField] on a field that has a validator and an input: the
    verdict, and the two elements changed. *)
Lemma validateField_closed fieldName validator value form input :
  FormHandler.validatorOf fieldName FormHandler.validators = Some validator ->
  querySelector fieldName form = Some input ->
  FormHandler.validateField fieldName value form
  = (FormHandler.validate validator value,
     update (fieldName ++ "Error")
       (fun el =>
          if FormHandler.validate validator value
          then classRemove "visible" (setTextContent [] el)
          else classAdd "visible"
                 (setTextContent (FormHandler.message validator) el))
       (update fieldName
          (fun el =>
             if FormHandler.validate validator value
             then classAdd "success" (classRemove "error" el)
             else classAdd "error" (classRemove "success" el))
          form)).
Proof.
  intros Hv Hi. unfold FormHandler.validateField. rewrite Hv, Hi.
  assert (Hupd : forall i f g (fm : Form),
             update i g (update i f fm) = update i (fun el => g (f el)) fm).
  { intros i f g fm. induction fm as [|[j el] rest IH]; [reflexivity|].
    simpl. destruct (String.eqb j i) eqn:E; simpl; rewrite E;
      [reflexivity | rewrite IH; reflexivity]. }
  assert (Hnone : forall i f (fm : Form),
             querySelector i fm = None -> update i f fm = fm).
  { intros i f fm. induction fm as [|[j el] rest IH]; [reflexivity|].
    simpl. destruct (String.eqb j i); [discriminate|].
    intros H. rewrite IH by exact H. reflexivity. }
  assert (Hq : forall f (fm : Form),
             querySelector (fieldName ++ "Error") (update fieldName f fm)
             = querySelector (fieldName ++ "Error") fm).
  { intros f fm. rewrite DomFacts.query_update.
    destruct (String.eqb_spec fieldName (fieldName ++ "Error")) as [E|_];
      [|reflexivity].
    exfalso. symmetry in E. revert E. apply DomFacts.append_longer.
    discriminate. }
  destruct (FormHandler.validate validator value);
    rewrite !Hupd;
    (destruct (querySelector (fieldName ++ "Error") form) as [err|] eqn:He;
     [reflexivity|]);
    rewrite (Hnone (fieldName ++ "Error")%string); [reflexivity| |reflexivity|];
    rewrite Hq; exact He.
Qed.

(** X13. [validateField] gives the verdict of the validator of the field
    and marks it on the page: afterwards the input has the class success
    exactly when the value is valid and the class error exactly when it
    is not, its other classes and its value being as before; the error
    element of the field, when there is one, shows the message of the
    validator exactly when the value is not valid; and no other element
    of the form is changed. *)
Theorem validateField_marks fieldName validator val form input :
  FormHandler.validatorOf fieldName FormHandler.validators = Some validator ->
  querySelector fieldName form = Some input ->
  fst (FormHandler.validateField fieldName val form)
  = FormHandler.validate validator val
  /\ (exists input',
        querySelector fieldName
          (snd (FormHandler.validateField fieldName val form)) = Some input'
        /\ contains "success" (classList input')
           = FormHandler.validate validator val
        /\ contains "error" (classList input')
           = negb (FormHandler.validate validator val)
        /\ (forall c, c <> "success" -> c <> "error" ->
                      contains c (classList input')
                      = contains c (classList input))
        /\ value input' = value input)
  /\ (forall err,
        querySelector (fieldName ++ "Error") form = Some err ->
        exists err',
          querySelector (fieldName ++ "Error")
            (snd (FormHandler.validateField fieldName val form)) = Some err'
          /\ textContent err'
             = (if FormHandler.validate validator val then []
                else FormHandler.message validator)
          /\ contains "visible" (classList err')
             = negb (FormHandler.validate validator val))
  /\ (forall other,
        other <> fieldName -> other <> (fieldName ++ "Error")%string ->
        querySelector other
          (snd (FormHandler.validateField fieldName val form))
        = querySelector other form).
Proof.
  intros Hv Hi. rewrite (@validateField_closed fieldName validator val form input Hv Hi). cbn [fst snd].
  assert (Hne : String.eqb (fieldName ++ "Error") fieldName = false).
  { apply String.eqb_neq. apply DomFacts.append_longer. discriminate. }
  split; [reflexivity|]. split; [|split].
  - rewrite !DomFacts.query_update, Hne, String.eqb_refl, Hi. cbn [option_map].
    eexists. split; [reflexivity|].
    destruct (FormHandler.validate validator val); cbn [classList value classAdd classRemove];
      (split; [|split; [|split; [|reflexivity]]]).
    + apply DomFacts.contains_add_same.
    + rewrite DomFacts.contains_add_other by discriminate.
      apply DomFacts.contains_remove_same.
    + intros c H1 H2.
      rewrite DomFacts.contains_add_other by congruence.
      apply DomFacts.contains_remove_other. congruence.
    + rewrite DomFacts.contains_add_other by discriminate.
      apply DomFacts.contains_remove_same.
    + apply DomFacts.contains_add_same.
    + intros c H1 H2.
      rewrite DomFacts.contains_add_other by congruence.
      apply DomFacts.contains_remove_other. congruence.
  - intros err He. rewrite !DomFacts.query_update, String.eqb_refl.
    destruct (String.eqb_spec fieldName (fieldName ++ "Error")) as [E|_].
    { exfalso. symmetry in E. revert E. apply DomFacts.append_longer.
      discriminate. }
    rewrite He. cbn [option_map]. eexists. split; [reflexivity|].
    destruct (FormHandler.validate validator val);
      cbn [classList textContent classAdd classRemove setTextContent];
      (split; [reflexivity|]).
    + apply DomFacts.contains_remove_same.
    + apply DomFacts.contains_add_same.
  - intros other H1 H2. rewrite !DomFacts.query_update.
    destruct (String.eqb_spec (fieldName ++ "Error") other); [congruence|].
    destruct (String.eqb_spec fieldName other); [congruence|]. reflexivity.
Qed.

Lemma validateField_marks_witness :
  FormHandler.validatorOf "name" FormHandler.validators
  = Some {| FormHandler.validate :=
              fun value => (2 <=? List.length (trim value))%nat;
            FormHandler.message := js "Name must be at least 2 characters" |}
  /\ querySelector "name" (filledForm (js "A") [] [] []) = Some (inputOf (js "A"))
  /\ fst (FormHandler.validateField "name" (js "A")
            (filledForm (js "A") [] [] []))
     = false.
Proof.
  split; [reflexivity|]. split; [reflexivity|].
  apply (@validateField_marks "name"
           {| FormHandler.validate :=
                fun value => (2 <=? List.length (trim value))%nat;
              FormHandler.message := js "Name must be at least 2 characters" |}
           (js "A") (filledForm (js "A") [] [] []) (inputOf (js "A"))
           eq_refl eq_refl).
Defined.

(** [validateField] leaves every element but the input and the error
    element of its field as it was. *)
Lemma validateField_frame fieldName val form other :
  other <> fieldName -> other <> (fieldName ++ "Error")%string ->
  querySelector other (snd (FormHandler.validateField fieldName val form))
  = querySelector other form.
Proof.
  intros H1 H2.
  destruct (FormHandler.validatorOf fieldName FormHandler.validators)
    as [vd|] eqn:Hv;
    [destruct (querySelector fieldName form) as [input|] eqn:Hi|].
  - rewrite (@validateField_closed fieldName vd val form input Hv Hi).
    cbn [snd]. rewrite !DomFacts.query_update.
    destruct (String.eqb_spec (fieldName ++ "Error") other); [congruence|].
    destruct (String.eqb_spec fieldName other); [congruence|]. reflexivity.
  - unfold FormHandler.validateField. rewrite Hv, Hi. reflexivity.
  - unfold FormHandler.validateField. rewrite Hv. reflexivity.
Qed.

(** The verdict and the marks of [validateField] on the input. *)
Lemma validateField_marks_lemma fieldName validator val form input :
  FormHandler.validatorOf fieldName FormHandler.validators = Some validator ->
  querySelector fieldName form = Some input ->
  fst (FormHandler.validateField fieldName val form)
  = FormHandler.validate validator val
  /\ exists input',
       querySelector fieldName
         (snd (FormHandler.validateField fieldName val form)) = Some input'
       /\ value input' = value input
       /\ contains "success" (classList input')
          = FormHandler.validate validator val
       /\ contains "error" (classList input')
          = negb (FormHandler.validate validator val).
Proof.
  intros Hv Hi.
  rewrite (@validateField_closed fieldName validator val form input Hv Hi).
  cbn [fst snd].
  assert (Hne : String.eqb (fieldName ++ "Error") fieldName = false).
  { apply String.eqb_neq. apply DomFacts.append_longer. discriminate. }
  split; [reflexivity|].
  rewrite !DomFacts.query_update, Hne, String.eqb_refl, Hi. cbn [option_map].
  eexists. split; [reflexivity|].
  destruct (FormHandler.validate validator val);
    cbn [classList value classAdd classRemove];
    (split; [reflexivity|]); split.
  - apply DomFacts.contains_add_same.
  - rewrite DomFacts.contains_add_other by discriminate.
    apply DomFacts.contains_remove_same.
  - rewrite DomFacts.contains_add_other by discriminate.
    apply DomFacts.contains_remove_same.
  - apply DomFacts.contains_add_same.
Qed.

(** The loop of [validateForm] over fields none of which is the error
    element of another: the verdicts are those on the form as it was,
    every input with a validator is marked with its own verdict, and
    nothing else than the fields and their error elements changes. *)
Lemma validate_fields ks :
  forall acc form,
    NoDup ks ->
    (forall k k', In k ks -> In k' ks -> k <> (k' ++ "Error")%string) ->
    fst (fold_left FormHandler.validateStep ks (acc, form))
    = acc && forallb (verdict form) ks
    /\ (forall g,
          ~ In g ks -> (forall k, In k ks -> g <> (k ++ "Error")%string) ->
          querySelector g (snd (fold_left FormHandler.validateStep ks (acc, form)))
          = querySelector g form)
    /\ (forall k input vd,
          In k ks -> querySelector k form = Some input ->
          FormHandler.validatorOf k FormHandler.validators = Some vd ->
          exists input',
            querySelector k
              (snd (fold_left FormHandler.validateStep ks (acc, form)))
            = Some input'
            /\ value input' = value input
            /\ contains "success" (classList input')
               = FormHandler.validate vd (value input)
            /\ contains "error" (classList input')
               = negb (FormHandler.validate vd (value input))).
Proof.
  induction ks as [|k0 ks IH]; intros acc form Hnd Herr.
  - simpl. rewrite andb_true_r. repeat split; auto. intros k input vd [].
  - inversion Hnd as [|? ? Hnotin Hnd']; subst.
    assert (Herr' : forall k k', In k ks -> In k' ks ->
                                 k <> (k' ++ "Error")%string).
    { intros k k' H1 H2. apply Herr; right; assumption. }
    cbn [fold_left].
    (* the first field *)
    assert (Hstep : exists form1,
               FormHandler.validateStep (acc, form) k0
               = (acc && verdict form k0, form1)
               /\ (forall g, g <> k0 -> g <> (k0 ++ "Error")%string ->
                             querySelector g form1 = querySelector g form)
               /\ (forall input vd,
                     querySelector k0 form = Some input ->
                     FormHandler.validatorOf k0 FormHandler.validators = Some vd ->
                     exists input',
                       querySelector k0 form1 = Some input'
                       /\ value input' = value input
                       /\ contains "success" (classList input')
                          = FormHandler.validate vd (value input)
                       /\ contains "error" (classList input')
                          = negb (FormHandler.validate vd (value input)))).
    { unfold FormHandler.validateStep, verdict.
      destruct (querySelector k0 form) as [input|] eqn:Hi.
      - destruct (FormHandler.validateField k0 (value input) form)
          as [ok form1] eqn:Hvf.
        exists form1.
        assert (Hfr : forall g, g <> k0 -> g <> (k0 ++ "Error")%string ->
                                querySelector g form1 = querySelector g form).
        { intros g H1 H2.
          pose proof (@validateField_frame k0 (value input) form g H1 H2) as F.
          rewrite Hvf in F. exact F. }
        destruct (FormHandler.validatorOf k0 FormHandler.validators)
          as [vd|] eqn:Hv.
        + destruct (@validateField_marks_lemma k0 vd (value input) form input
                      Hv Hi) as (Hok & Hmark).
          rewrite Hvf in Hok, Hmark. cbn [fst snd] in Hok, Hmark. subst ok.
          split; [|split; [exact Hfr|]].
          * destruct (FormHandler.validate vd (value input)), acc; reflexivity.
          * intros input0 vd0 E1 E2. injection E1 as <-. injection E2 as <-.
            exact Hmark.
        + assert (Hok : ok = true).
          { unfold FormHandler.validateField in Hvf. rewrite Hv in Hvf.
            injection Hvf as <- _. reflexivity. }
          subst ok. split; [|split; [exact Hfr|]].
          * destruct acc; reflexivity.
          * intros input0 vd0 _ E2. discriminate.
      - exists form. split; [|split].
        + destruct (FormHandler.validatorOf k0 FormHandler.validators);
            rewrite andb_true_r; reflexivity.
        + reflexivity.
        + intros input vd E. discriminate. }
    destruct Hstep as (form1 & -> & Hfr & Hmark0).
    destruct (IH (acc && verdict form k0) form1 Hnd' Herr') as (I1 & I2 & I3).
    assert (Hsame : forall k, In k ks -> querySelector k form1 = querySelector k form).
    { intros k Hk. apply Hfr.
      - intros ->. contradiction.
      - apply Herr; [right; exact Hk | left; reflexivity]. }
    split; [|split].
    + rewrite I1. cbn [forallb]. rewrite andb_assoc. f_equal.
      clear -Hsame. induction ks as [|k ks IHks]; [reflexivity|].
      cbn [forallb]. f_equal.
      * unfold verdict. rewrite (Hsame k (or_introl eq_refl)). reflexivity.
      * apply IHks. intros k' Hk'. apply Hsame. right. exact Hk'.
    + intros g Hg Hge. rewrite I2.
      * apply Hfr; [intros ->; apply Hg; left; reflexivity
                   | apply Hge; left; reflexivity].
      * intros F. apply Hg. right. exact F.
      * intros k Hk. apply Hge. right. exact Hk.
    + intros k input vd [<-|Hk] Hi Hv.
      * destruct (Hmark0 input vd Hi Hv) as (input' & Hq & Hrest).
        exists input'. split; [|exact Hrest].
        rewrite I2; [exact Hq | exact Hnotin |].
        intros k Hk. apply Herr; [left; reflexivity | right; exact Hk].
      * apply I3; [exact Hk | rewrite (Hsame k Hk); exact Hi | exact Hv].
Qed.

Lemma validator_keys :
  map fst FormHandler.validators = ["name"; "email"; "subject"; "message"]
  /\ NoDup (map fst FormHandler.validators)
  /\ (forall k k', In k (map fst FormHandler.validators) ->
                   In k' (map fst FormHandler.validators) ->
                   k <> (k' ++ "Error")%string).
Proof.
  split; [reflexivity|]. split.
  - repeat constructor; simpl; intros H;
      repeat (destruct H as [H|H]; [discriminate|]); exact H.
  - simpl. intros k k' Hk Hk'.
    repeat (destruct Hk as [<-|Hk]);
      repeat (destruct Hk' as [<-|Hk']); try discriminate; contradiction.
Qed.

(** X14. [validateForm] judges every field, also after one has failed:
    its result is true exactly when every input that is on the page
    holds a valid value, and afterwards every such input carries the
    mark of its own verdict, the class error or the class success, with
    its value unchanged. *)
Theorem validateForm_checks_every_field form :
  fst (FormHandler.validateForm form)
  = verdict form "name" && verdict form "email"
    && verdict form "subject" && verdict form "message"
  /\ (forall k input vd,
        In (k, vd) FormHandler.validators ->
        querySelector k form = Some input ->
        exists input',
          querySelector k (snd (FormHandler.validateForm form)) = Some input'
          /\ value input' = value input
          /\ contains "success" (classList input')
             = FormHandler.validate vd (value input)
          /\ contains "error" (classList input')
             = negb (FormHandler.validate vd (value input))).
Proof.
  destruct validator_keys as (Hk & Hnd & Herr).
  destruct (@validate_fields (map fst FormHandler.validators) true form Hnd Herr)
    as (H1 & _ & H3).
  split.
  - unfold FormHandler.validateForm. rewrite H1, Hk. cbn [forallb andb].
    rewrite andb_true_r, !andb_assoc. reflexivity.
  - intros k input vd Hin Hq. unfold FormHandler.validateForm.
    apply (H3 k input vd); [| exact Hq |].
    + apply (in_map fst) in Hin. exact Hin.
    + simpl in Hin.
      repeat (destruct Hin as [Hin|Hin];
              [injection Hin as <- <-; reflexivity|]).
      contradiction.
Qed.

(** X15. The page and the handlers judge alike: a form whose four inputs
    hold the strings of a submission passes [validateForm] exactly when
    the validation of server.js and api/contact.js finds no error in the
    submission. *)
Theorem page_and_handlers_agree form i1 i2 i3 i4 :
  querySelector "name" form = Some i1 ->
  querySelector "email" form = Some i2 ->
  querySelector "subject" form = Some i3 ->
  querySelector "message" form = Some i4 ->
  fst (FormHandler.validateForm form) = true
  <-> validation (submission (value i1) (value i2) (value i3) (value i4)) = [].
Proof.
  intros H1 H2 H3 H4.
  destruct validator_keys as (Hk & Hnd & Herr).
  destruct (@validate_fields (map fst FormHandler.validators) true form Hnd Herr)
    as (Hf & _ & _).
  unfold FormHandler.validateForm. rewrite Hf, Hk. cbn [forallb andb].
  unfold verdict. rewrite H1, H2, H3, H4.
  cbn [FormHandler.validatorOf FormHandler.validators String.eqb Ascii.eqb
       Bool.eqb FormHandler.validate].
  rewrite submission_accepted, andb_true_r, !andb_true_iff, !Nat.leb_le.
  unfold isValidEmail. tauto.
Qed.

Lemma page_and_handlers_agree_witness :
  querySelector "name" (filledForm (js "A") (js "bad") (js "Hi!") (js "short"))
  = Some (inputOf (js "A"))
  /\ (fst (FormHandler.validateForm
             (filledForm (js "A") (js "bad") (js "Hi!") (js "short"))) = true
      <-> validation scenario2 = []).
Proof.
  split; [reflexivity|].
  apply (@page_and_handlers_agree
           (filledForm (js "A") (js "bad") (js "Hi!") (js "short"))
           (inputOf (js "A")) (inputOf (js "bad")) (inputOf (js "Hi!"))
           (inputOf (js "short")));
    reflexivity.
Defined.

(* ================================================================== *)
(** ** The page script: sending the form *)

Ltac page_run :=
  cbn [FormHandler.setLoadingState FormHandler.toast FormHandler.caught
       FormHandler.withForm FormHandler.submitBtn FormHandler.posted
       FormHandler.form FormHandler.toastContainer FormHandler.errorLog
       negb fst snd].

(** X16. The listener of the submit event sends a request only for a
    form that passes [validateForm], and then exactly one, with the data
    of the form; a form that fails gets the toast that asks to fill in
    all fields and the button is not touched.  Whatever the network and
    the answer do afterwards, the submit button, when the page has one,
    ends enabled and without the class loading. *)
Theorem submit_posts_valid_forms_once data net p :
  (fst (FormHandler.validateForm (FormHandler.form p)) = false ->
   FormHandler.posted (FormHandler.submit data net p) = FormHandler.posted p
   /\ FormHandler.submitBtn (FormHandler.submit data net p)
      = FormHandler.submitBtn p
   /\ FormHandler.errorLog (FormHandler.submit data net p)
      = FormHandler.errorLog p
   /\ FormHandler.toastContainer (FormHandler.submit data net p)
      = Toast.show (js "Please fill in all fields correctly") (js "error")
                   (FormHandler.toastContainer p))
  /\ (fst (FormHandler.validateForm (FormHandler.form p)) = true ->
      FormHandler.posted (FormHandler.submit data net p)
      = FormHandler.posted p ++ [data]
      /\ (forall btn,
            FormHandler.submitBtn p = Some btn ->
            exists btn',
              FormHandler.submitBtn (FormHandler.submit data net p) = Some btn'
              /\ disabled btn' = false
              /\ contains "loading" (classList btn') = false)
      /\ (FormHandler.submitBtn p = None ->
          FormHandler.submitBtn (FormHandler.submit data net p) = None)).
Proof.
  unfold FormHandler.submit.
  destruct (FormHandler.validateForm (FormHandler.form p)) as [ok f].
  cbn [fst]. split; intros ->; cbn [negb].
  - repeat split; reflexivity.
  - destruct p as [fm [btn|] tc ps el]; page_run;
      (destruct net as [error|result];
       [|destruct (truthy (jsonField "success" (Some result)));
         [|destruct (truthy (jsonField "errors" (Some result)));
           [destruct (jsonField "errors" (Some result)) as [[]|]|]]]);
      page_run;
      (split; [reflexivity|]);
      (split; [|intros F; first [reflexivity | discriminate]]);
      intros btn0 E; try discriminate; injection E as <-;
      (eexists; split; [reflexivity|]);
      (split; [reflexivity | apply DomFacts.contains_remove_same]).
Qed.

Lemma submit_posts_valid_forms_once_witness :
  fst (FormHandler.validateForm
         (FormHandler.form
            (pageOf (filledForm (js "A") (js "bad") (js "Hi!") (js "short")))))
  = false
  /\ FormHandler.posted
       (FormHandler.submit (JObj []) (inr thankYou)
          (pageOf (filledForm (js "A") (js "bad") (js "Hi!") (js "short"))))
     = [].
Proof.
  assert (H : fst (FormHandler.validateForm
                     (FormHandler.form
                        (pageOf (filledForm (js "A") (js "bad") (js "Hi!")
                                   (js "short"))))) = false)
    by (vm_compute; reflexivity).
  split; [exact H|].
  destruct (@submit_posts_valid_forms_once (JObj []) (inr thankYou)
              (pageOf (filledForm (js "A") (js "bad") (js "Hi!") (js "short"))))
    as [Hbad _].
  destruct (Hbad H) as [Hp _]. exact Hp.
Defined.

(** What the listener shows for the three bodies of the handlers. *)
Lemma submit_on_answer data p f children :
  FormHandler.validateForm (FormHandler.form p) = (true, f) ->
  FormHandler.toastContainer p = Some children ->
  FormHandler.toastContainer (FormHandler.submit data (inr thankYou) p)
  = Some (children
          ++ [{| Toast.className := js "toast success";
                 Toast.innerHTML :=
                   Toast.successIcon ++ js "<span>"
                   ++ js "Thank you for your message! I will get back to you soon."
                   ++ js "</span>" |}])
  /\ FormHandler.toastContainer (FormHandler.submit data (inr genericFailure) p)
     = Some (children
             ++ [{| Toast.className := js "toast error";
                    Toast.innerHTML :=
                      Toast.errorIcon ++ js "<span>"
                      ++ js "Sorry, there was an error sending your message. Please try again later."
                      ++ js "</span>" |}])
  /\ (forall errors,
        FormHandler.toastContainer
          (FormHandler.submit data (inr (rejection errors)) p)
        = Some (children
                ++ [{| Toast.className := js "toast error";
                       Toast.innerHTML :=
                         Toast.errorIcon ++ js "<span>"
                         ++ join (js ", ") errors ++ js "</span>" |}]))
  /\ (forall j,
        j = thankYou \/ j = genericFailure \/ (exists errors, j = rejection errors) ->
        FormHandler.errorLog (FormHandler.submit data (inr j) p)
        = FormHandler.errorLog p).
Proof.
  intros Hv Hc. unfold FormHandler.submit. rewrite Hv.
  destruct p as [fm sb tc ps el]. cbn [FormHandler.toastContainer] in Hc.
  subst tc.
  assert (Hmap : forall errors, map toStr (map JStr errors) = errors).
  { intros errors. rewrite map_map. apply map_id. }
  split; [|split; [|split]].
  - destruct sb; vm_compute; reflexivity.
  - destruct sb; vm_compute; reflexivity.
  - intros errors. destruct sb; page_run;
      change (truthy (jsonField "success" (Some (rejection errors)))) with false;
      change (truthy (jsonField "errors" (Some (rejection errors)))) with true;
      change (jsonField "errors" (Some (rejection errors)))
        with (Some (JArr (map JStr errors)));
      cbv iota; page_run; unfold Toast.show; rewrite Hmap;
      change (strictEq (js "error") (js "success")) with false;
      reflexivity.
  - intros j [->|[->|[errors ->]]]; destruct sb; page_run.
    + vm_compute. reflexivity.
    + vm_compute. reflexivity.
    + vm_compute. reflexivity.
    + vm_compute. reflexivity.
    + change (truthy (jsonField "success" (Some (rejection errors)))) with false;
      change (truthy (jsonField "errors" (Some (rejection errors)))) with true;
      change (jsonField "errors" (Some (rejection errors)))
        with (Some (JArr (map JStr errors)));
      cbv iota; page_run; reflexivity.
    + change (truthy (jsonField "success" (Some (rejection errors)))) with false;
      change (truthy (jsonField "errors" (Some (rejection errors)))) with true;
      change (jsonField "errors" (Some (rejection errors)))
        with (Some (JArr (map JStr errors)));
      cbv iota; page_run; reflexivity.
Qed.

Lemma shown_text_is_plain status b :
  ~ In 60 (shownFor status b) /\ ~ In 38 (shownFor status b).
Proof.
  unfold shownFor. destruct (status =? 200); [split; not_among|].
  destruct (status =? 400); [|split; not_among].
  rewrite validation_eq.
  destruct (nameFails b), (emailFails b), (subjectFails b), (messageFails b);
    split; not_among.
Qed.

(** X17. The page and a handler together.  When a form that passes
    [validateForm] is sent and the body of the answer of server.js or of
    api/contact.js to a POST comes back, the page adds exactly one toast:
    of kind success with the thanks for status 200, of kind error with
    the errors joined by a comma and a space for status 400, of kind
    error with the fixed failure message for status 500.  The text is
    made of the fixed messages of the handler only: it has no less-than
    sign and no ampersand, so that no markup comes out of it; and
    nothing goes to console.error. *)
Theorem page_shows_the_answer env o oa b w data p f children :
  FormHandler.validateForm (FormHandler.form p) = (true, f) ->
  FormHandler.toastContainer p = Some children ->
  (exists r j,
      fst (Server.contact env o b w) = Normal r /\ body r = Some j
      /\ FormHandler.toastContainer (FormHandler.submit data (inr j) p)
         = Some (children
                 ++ [toastOf (status r =? 200) (shownFor (status r) b)])
      /\ FormHandler.errorLog (FormHandler.submit data (inr j) p)
         = FormHandler.errorLog p)
  /\ (exists r j,
        fst (Api.contact env oa (post b) w) = Normal r /\ body r = Some j
        /\ FormHandler.toastContainer (FormHandler.submit data (inr j) p)
           = Some (children
                   ++ [toastOf (status r =? 200) (shownFor (status r) b)])
        /\ FormHandler.errorLog (FormHandler.submit data (inr j) p)
           = FormHandler.errorLog p)
  /\ (forall status, ~ In 60 (shownFor status b) /\ ~ In 38 (shownFor status b)).
Proof.
  intros Hv Hc.
  destruct (@submit_on_answer data p f children Hv Hc) as (Ht & Hf & Hr & Hl).
  assert (E200 : toastOf (200 =? 200) (shownFor 200 b)
                 = {| Toast.className := js "toast success";
                      Toast.innerHTML :=
                        Toast.successIcon ++ js "<span>"
                        ++ js "Thank you for your message! I will get back to you soon."
                        ++ js "</span>" |}).
  { unfold toastOf, shownFor. change (200 =? 200) with true. reflexivity. }
  assert (E500 : toastOf (500 =? 200) (shownFor 500 b)
                 = {| Toast.className := js "toast error";
                      Toast.innerHTML :=
                        Toast.errorIcon ++ js "<span>"
                        ++ js "Sorry, there was an error sending your message. Please try again later."
                        ++ js "</span>" |}).
  { unfold toastOf, shownFor. change (500 =? 200) with false.
    change (500 =? 400) with false. reflexivity. }
  assert (E400 : toastOf (400 =? 200) (shownFor 400 b)
                 = {| Toast.className := js "toast error";
                      Toast.innerHTML :=
                        Toast.errorIcon ++ js "<span>"
                        ++ join (js ", ") (validation b) ++ js "</span>" |}).
  { unfold toastOf, shownFor. change (400 =? 200) with false.
    change (400 =? 400) with true. reflexivity. }
  assert (H200 : forall hs,
             exists r j,
               Normal {| status := 200; headers := hs; body := Some thankYou |}
               = Normal r /\ body r = Some j
               /\ FormHandler.toastContainer (FormHandler.submit data (inr j) p)
                  = Some (children
                          ++ [toastOf (status r =? 200) (shownFor (status r) b)])
               /\ FormHandler.errorLog (FormHandler.submit data (inr j) p)
                  = FormHandler.errorLog p).
  { intros hs. eexists. exists thankYou. split; [reflexivity|].
    split; [reflexivity|]. cbn [status]. rewrite E200.
    split; [exact Ht|]. apply Hl. left. reflexivity. }
  assert (H500 : forall hs,
             exists r j,
               Normal {| status := 500; headers := hs;
                         body := Some genericFailure |}
               = Normal r /\ body r = Some j
               /\ FormHandler.toastContainer (FormHandler.submit data (inr j) p)
                  = Some (children
                          ++ [toastOf (status r =? 200) (shownFor (status r) b)])
               /\ FormHandler.errorLog (FormHandler.submit data (inr j) p)
                  = FormHandler.errorLog p).
  { intros hs. eexists. exists genericFailure. split; [reflexivity|].
    split; [reflexivity|]. cbn [status]. rewrite E500.
    split; [exact Hf|]. apply Hl. right. left. reflexivity. }
  assert (H400 : forall hs,
             exists r j,
               Normal {| status := 400; headers := hs;
                         body := Some (rejection (validation b)) |}
               = Normal r /\ body r = Some j
               /\ FormHandler.toastContainer (FormHandler.submit data (inr j) p)
                  = Some (children
                          ++ [toastOf (status r =? 200) (shownFor (status r) b)])
               /\ FormHandler.errorLog (FormHandler.submit data (inr j) p)
                  = FormHandler.errorLog p).
  { intros hs. eexists. exists (rejection (validation b)).
    split; [reflexivity|]. split; [reflexivity|]. cbn [status]. rewrite E400.
    split; [apply Hr|]. apply Hl. right. right. eexists. reflexivity. }
  split; [|split].
  - destruct (list_eq_dec (list_eq_dec N.eq_dec) (validation b) [])
      as [Hval|Hne].
    + rewrite (@server_contact_accepted env o b w Hval).
      destruct (transporter w) as [t|]; [destruct (Server.sendOutcome o)|].
      * apply H500.
      * apply H200.
      * apply H200.
    + rewrite (@server_contact_rejected env o b w Hne). cbn [fst]. apply H400.
  - destruct (list_eq_dec (list_eq_dec N.eq_dec) (validation b) [])
      as [Hval|Hne].
    + rewrite (@api_contact_accepted env oa b w Hval).
      destruct (hasCredentials env);
        [destruct (Api.testAccountOutcome oa)
        |destruct (Api.testAccountOutcome oa)];
        destruct (Api.sendOutcome oa).
      * apply H500.
      * apply H200.
      * apply H500.
      * apply H200.
      * apply H500.
      * apply H500.
      * apply H500.
      * apply H200.
    + rewrite (@api_contact_rejected env oa b w Hne). cbn [fst]. apply H400.
  - intros st. apply shown_text_is_plain.
Qed.

Lemma page_shows_the_answer_witness :
  FormHandler.validateForm
    (FormHandler.form
       (pageOf (filledForm (js "Al") (js "a@b.co") (js "Hi!")
                  (js "This message is long enough to pass the check."))))
  = (true,
     snd (FormHandler.validateForm
            (filledForm (js "Al") (js "a@b.co") (js "Hi!")
               (js "This message is long enough to pass the check."))))
  /\ ~ In 60 (shownFor 400 scenario2).
Proof.
  assert (H : FormHandler.validateForm
                (FormHandler.form
                   (pageOf (filledForm (js "Al") (js "a@b.co") (js "Hi!")
                              (js "This message is long enough to pass the check."))))
              = (true,
                 snd (FormHandler.validateForm
                        (filledForm (js "Al") (js "a@b.co") (js "Hi!")
                           (js "This message is long enough to pass the check.")))))
    by (vm_compute; reflexivity).
  split; [exact H|].
  destruct (@page_shows_the_answer bareEnv (serverOracle None delivered)
              (apiOracle delivered) scenario2 (freshWorld None) (JObj [])
              (pageOf (filledForm (js "Al") (js "a@b.co") (js "Hi!")
                         (js "This message is long enough to pass the check.")))
              _ [] H eq_refl) as (_ & _ & Hplain).
  exact (proj1 (Hplain 400)).
Defined.

(* ================================================================== *)
(** ** The page script: the mobile menu *)

Lemma handle_consistent m ev :
  Navigation.consistent m -> Navigation.consistent (Navigation.handle m ev).
Proof.
  unfold Navigation.consistent, Navigation.isOpen. intros [Ht Ho].
  assert (Hclose : contains "active"
                     (Navigation.navToggle (Navigation.close m))
                   = contains "active" (Navigation.navMenu (Navigation.close m))
                   /\ Navigation.overflow (Navigation.close m)
                      = (if contains "active"
                              (Navigation.navMenu (Navigation.close m))
                         then js "hidden" else [])).
  { cbn [Navigation.close Navigation.navToggle Navigation.navMenu
         Navigation.overflow].
    rewrite !DomFacts.contains_remove_same. split; reflexivity. }
  destruct ev as [| |key]; cbn [Navigation.handle].
  - cbn [Navigation.navToggle Navigation.navMenu Navigation.overflow].
    rewrite !DomFacts.contains_toggle, Ht. split; reflexivity.
  - exact Hclose.
  - destruct (strictEq key (js "Escape")
              && contains "active" (Navigation.navMenu m));
      [exact Hclose | split; assumption].
Qed.

(** X18. The mobile menu.  When the hamburger button and the menu start
    in the same state, with the page scroll locked exactly when the menu
    is open, they stay so after any sequence of clicks on the button,
    clicks on a link and key presses.  A click on the button flips the
    menu and sets aria-expanded to the new state; a click on a link and
    the Escape key close it, any other key does nothing.  The attribute
    aria-expanded is written by the button alone: after the button
    opened the menu and a link closed it, it still says true. *)
Theorem menu_stays_consistent events m :
  Navigation.consistent m ->
  Navigation.consistent (fold_left Navigation.handle events m)
  /\ Navigation.isOpen (Navigation.handle m Navigation.ToggleClick)
     = negb (Navigation.isOpen m)
  /\ Navigation.ariaExpanded (Navigation.handle m Navigation.ToggleClick)
     = Some (if Navigation.isOpen m then js "false" else js "true")
  /\ Navigation.isOpen (Navigation.handle m Navigation.LinkClick) = false
  /\ Navigation.isOpen
       (Navigation.handle m (Navigation.KeyDown (js "Escape"))) = false
  /\ (forall key, key <> js "Escape" ->
                  Navigation.handle m (Navigation.KeyDown key) = m)
  /\ (Navigation.isOpen m = false ->
      Navigation.isOpen
        (fold_left Navigation.handle
           [Navigation.ToggleClick; Navigation.LinkClick] m) = false
      /\ Navigation.ariaExpanded
           (fold_left Navigation.handle
              [Navigation.ToggleClick; Navigation.LinkClick] m)
         = Some (js "true")).
Proof.
  intros Hc. split.
  - revert m Hc. induction events as [|ev events IH]; intros m Hc; [exact Hc|].
    cbn [fold_left]. apply IH. apply handle_consistent. exact Hc.
  - destruct Hc as [Ht Ho]. unfold Navigation.isOpen in *.
    split; [|split; [|split; [|split; [|split]]]].
    + cbn [Navigation.handle Navigation.navMenu].
      apply DomFacts.contains_toggle.
    + cbn [Navigation.handle Navigation.ariaExpanded].
      rewrite DomFacts.contains_toggle, Ht.
      destruct (contains "active" (Navigation.navMenu m)); reflexivity.
    + cbn [Navigation.handle Navigation.close Navigation.navMenu].
      apply DomFacts.contains_remove_same.
    + cbn [Navigation.handle].
      change (strictEq (js "Escape") (js "Escape")) with true.
      cbn [andb].
      destruct (contains "active" (Navigation.navMenu m)) eqn:E;
        [|exact E].
      cbn [Navigation.close Navigation.navMenu].
      apply DomFacts.contains_remove_same.
    + intros key Hk. cbn [Navigation.handle].
      destruct (strictEq key (js "Escape")) eqn:E; [|reflexivity].
      apply strictEq_true in E. contradiction.
    + intros Hclosed. cbn [fold_left Navigation.handle Navigation.close
                             Navigation.navMenu Navigation.ariaExpanded
                             Navigation.navToggle].
      split; [apply DomFacts.contains_remove_same|].
      rewrite DomFacts.contains_toggle, Ht, Hclosed. reflexivity.
Qed.

Lemma menu_stays_consistent_witness :
  Navigation.consistent closedMenu
  /\ Navigation.consistent
       (fold_left Navigation.handle
          [Navigation.ToggleClick; Navigation.KeyDown (js "Escape")]
          closedMenu).
Proof.
  assert (H : Navigation.consistent closedMenu) by (split; reflexivity).
  split; [exact H|].
  apply (@menu_stays_consistent
           [Navigation.ToggleClick; Navigation.KeyDown (js "Escape")]
           closedMenu H).
Defined.
